(** * aiohttp_admin: schema-to-validator and filter compiler

    A shallow embedding of [aiohttp_admin/backends/sa_utils.py] and of
    [setup_resources] from [aiohttp_admin/routes.py], with the properties
    of the specification stated over it.

    Python exceptions are values of [exn]; a function that may raise returns
    [result A = exn + A] ([inl e] raises [e], [inr a] returns [a]).
    JSON-like Python values are [pyval].  Dictionaries are association lists
    in insertion order, which is the order Python iterates them in. *)

From Stdlib Require Import List String Ascii ZArith QArith Bool Lia.
Import ListNotations.
Local Close Scope Q_scope.
Local Open Scope string_scope.

Set Warnings "-register-all".

(** ** Results and exceptions *)

Inductive pyval : Type :=
  | VNone
  | VBool (b : bool)
  | VInt (z : Z)
  | VFloat (q : Q)
  | VStr (s : string)
  | VDatetime (stamp : string)
  | VList (items : list pyval)
  | VDict (items : list (string * pyval)).

(** A trafaret [DataError]: a message about one value, or a mapping from
    keys (field names, or positions for [List] and [Or]) to nested errors. *)
Inductive ekey : Type :=
  | Name (s : string)
  | Index (n : nat).

Inductive DataError : Type :=
  | Failure (msg : string) (value : option pyval)
  | Errors (items : list (ekey * DataError)).

(** What [JsonValidaitonError] is raised with: a message, or the fields of a
    [DataError] ([**exc.as_dict()]). *)
Inductive json_error : Type :=
  | Message (msg : string)
  | Fields (error : DataError).

Inductive exn : Type :=
  | KeyError (key : string)
  | NotImplementedError (msg : string)
  | ValueError (msg : string)
  | TypeError (msg : string)
  | ArgumentError (msg : string)
  | Exception (msg : string)
  | JsonValidaitonError (error : json_error).

Definition result (A : Type) : Type := (exn + A)%type.

Definition raise {A : Type} (e : exn) : result A := inl e.
Definition ret {A : Type} (a : A) : result A := inr a.

Definition bind {A B : Type} (m : result A) (k : A -> result B) : result B :=
  match m with
  | inl e => inl e
  | inr a => k a
  end.

Notation "x <- m ;; k" := (bind m (fun x => k))
  (at level 61, m at next level, right associativity).

Definition succeeds {A : Type} (m : result A) : bool :=
  match m with inl _ => false | inr _ => true end.

Definition str_in (s : string) (l : list string) : bool :=
  existsb (String.eqb s) l.

(** ** SQLAlchemy column types

    The classes of [sqlalchemy.sql.sqltypes] and of the PostgreSQL dialect
    that the code dispatches on.  [Enum] and [Text] are subclasses of
    [String] in SQLAlchemy; [DateTime] and [Date] are unrelated classes.
    [LargeBinary] stands for a type the code has no case for. *)

Inductive sa_class : Type :=
  | CEnum | CString | CText | CInteger | CFloat | CDateTime | CDate
  | CBoolean | CJSON | CARRAY | CLargeBinary.

Inductive sa_type : Type :=
  | Enum (enums : list string)
  | String_ (length : option nat)
  | Text
  | Integer
  | Float
  | DateTime
  | Date
  | Boolean
  | JSON
  | ARRAY (item_type : sa_type)
  | LargeBinary.

Definition sa_class_eqb (a b : sa_class) : bool :=
  match a, b with
  | CEnum, CEnum | CString, CString | CText, CText | CInteger, CInteger
  | CFloat, CFloat | CDateTime, CDateTime | CDate, CDate
  | CBoolean, CBoolean | CJSON, CJSON | CARRAY, CARRAY
  | CLargeBinary, CLargeBinary => true
  | _, _ => false
  end.

(** [type(x)]: the exact class of a type object. *)
Definition type_of (t : sa_type) : sa_class :=
  match t with
  | Enum _ => CEnum
  | String_ _ => CString
  | Text => CText
  | Integer => CInteger
  | Float => CFloat
  | DateTime => CDateTime
  | Date => CDate
  | Boolean => CBoolean
  | JSON => CJSON
  | ARRAY _ => CARRAY
  | LargeBinary => CLargeBinary
  end.

(** The class itself followed by its ancestors among the classes above. *)
Definition mro (c : sa_class) : list sa_class :=
  match c with
  | CEnum => [CEnum; CString]
  | CText => [CText; CString]
  | _ => [c]
  end.

Definition issubclass (c d : sa_class) : bool := existsb (sa_class_eqb d) (mro c).

Definition isinstance (t : sa_type) (c : sa_class) : bool := issubclass (type_of t) c.

(** [str(sa_type)], used in error messages only. *)
Fixpoint type_str (t : sa_type) : string :=
  match t with
  | Enum _ => "VARCHAR"
  | String_ _ => "VARCHAR"
  | Text => "TEXT"
  | Integer => "INTEGER"
  | Float => "FLOAT"
  | DateTime => "DATETIME"
  | Date => "DATE"
  | Boolean => "BOOLEAN"
  | JSON => "JSON"
  | ARRAY i => type_str i ++ "[]"
  | LargeBinary => "BLOB"
  end.

(** A column descriptor.  [table.c] is keyed by the column's name. *)
Record Column : Type := mkColumn {
  name : string;
  type : sa_type;
  nullable : bool;
  server_default : option pyval
}.

Record Table : Type := mkTable {
  table_name : string;
  c : list Column
}.

(** [table.c.items()] and [table.c.keys()]. *)
Definition items (t : Table) : list (string * Column) :=
  map (fun col => (name col, col)) (c t).

Definition keys (t : Table) : list string := map name (c t).

(** ** Operator registry *)

(** [comparator_map]: a dictionary keyed by class objects. *)
Definition comparator_map : list (sa_class * list string) :=
  [ (CString, ["eq"; "ne"; "like"]);
    (CText, ["eq"; "ne"; "like"]);
    (CInteger, ["eq"; "ne"; "lt"; "le"; "gt"; "ge"; "in"]);
    (CFloat, ["eq"; "ne"; "lt"; "le"; "gt"; "ge"]);
    (CDate, ["eq"; "ne"; "lt"; "le"; "gt"; "ge"]) ].

Fixpoint class_lookup {A : Type} (k : sa_class) (m : list (sa_class * A)) : option A :=
  match m with
  | [] => None
  | (k', v) :: rest => if sa_class_eqb k k' then Some v else class_lookup k rest
  end.

Definition not_supported_msg (col : Column) : string :=
  "Filtering for column type " ++ type_str (type col) ++ " not supported".

Definition check_comparator (column : Column) (comparator : string) : result unit :=
  match class_lookup (type_of (type column)) comparator_map with
  | None => raise (Exception (not_supported_msg column))
  | Some allowed =>
      if negb (str_in comparator allowed)
      then raise (Exception (not_supported_msg column))
      else ret tt
  end.

(** ** UI field kinds *)

Definition not_implemented_msg (t : sa_type) : string :=
  "Validator for type " ++ type_str t ++ " not implemented".

Definition build_type_mapper (sa_type : sa_type) : result string :=
  if isinstance sa_type CEnum then ret "string"
  else if isinstance sa_type CString then ret "string"
  else if isinstance sa_type CText then ret "text"
  else if isinstance sa_type CInteger then ret "string"
  else if isinstance sa_type CFloat then ret "float"
  else if isinstance sa_type CDateTime then ret "datetime"
  else if isinstance sa_type CDate then ret "date"
  else if isinstance sa_type CBoolean then ret "boolean"
  else if isinstance sa_type CJSON then ret "json"
  else if isinstance sa_type CARRAY then ret "embedded_list"
  else raise (NotImplementedError (not_implemented_msg sa_type)).

(** ** Text helpers: [str.strip], [str.lower], [len] *)

Definition is_space (a : ascii) : bool :=
  let n := nat_of_ascii a in
  (Nat.eqb n 32) || ((9 <=? n)%nat && (n <=? 13)%nat).

Fixpoint lstrip (s : string) : string :=
  match s with
  | EmptyString => EmptyString
  | String a rest => if is_space a then lstrip rest else s
  end.

Fixpoint rev_string (acc s : string) : string :=
  match s with
  | EmptyString => acc
  | String a rest => rev_string (String a acc) rest
  end.

Definition strip (s : string) : string :=
  rev_string EmptyString (lstrip (rev_string EmptyString (lstrip s))).

Definition lower_ascii (a : ascii) : ascii :=
  let n := nat_of_ascii a in
  if ((65 <=? n)%nat && (n <=? 90)%nat)%bool then ascii_of_nat (n + 32) else a.

Fixpoint lower (s : string) : string :=
  match s with
  | EmptyString => EmptyString
  | String a rest => String (lower_ascii a) (lower rest)
  end.

(** ** Conversions the validators delegate to

    [int(s)] and [float(v)] of the Python runtime and [pyrfc3339.parse]:
    [None] stands for the exception the validator turns into a
    [DataError]. *)

Record Conversions : Type := mkConversions {
  py_int : string -> option Z;
  py_float : pyval -> option Q;
  rfc3339_parse : pyval -> option pyval
}.

(** ** Trafaret validators *)

Inductive trafaret : Type :=
  | TEnum (variants : list string)
  | TString (max_length : option nat)
  | TInt
  | TFloat
  | TDateTime
  | TStrBool
  | TNull
  | TAnyDict
  | TList (item : trafaret)
  | TOr (first second : trafaret).

Definition failure {A : Type} (msg : string) (value : pyval) : DataError + A :=
  inl (Failure msg (Some value)).

(** [str(value)] as far as [StrBool] can tell it apart from its tokens: the
    text of a list, dict, float or datetime is never one of them. *)
Definition bool_token (value : pyval) : option string :=
  match value with
  | VStr s => Some s
  | VNone => Some "None"
  | VBool true => Some "True"
  | VBool false => Some "False"
  | VInt 0 => Some "0"
  | VInt 1 => Some "1"
  | _ => None
  end.

Definition strbool_convertable : list string :=
  ["t"; "true"; "false"; "y"; "n"; "yes"; "no"; "on"; "off"; "1"; "0"; "none"].

Definition strbool_true : list string := ["t"; "true"; "y"; "yes"; "on"; "1"].

Definition is_integer (q : Q) : bool := Z.eqb (Z.modulo (Qnum q) (Zpos (Qden q))) 0.

(** [List._check]: every element is checked and the failures are collected
    by position. *)
Fixpoint check_items (check : pyval -> DataError + pyval) (index : nat)
    (values : list pyval) : list (ekey * DataError) * list pyval :=
  match values with
  | [] => ([], [])
  | v :: rest =>
      let '(errors, checked) := check_items check (S index) rest in
      match check v with
      | inl e => ((Index index, e) :: errors, checked)
      | inr v' => (errors, v' :: checked)
      end
  end.

Section Checking.

Variable cv : Conversions.

Fixpoint check_and_return (t : trafaret) (value : pyval) : DataError + pyval :=
  match t with
  | TEnum variants =>
      match value with
      | VStr s => if str_in s variants then inr value
                  else failure "value doesn't match any variant" value
      | _ => failure "value doesn't match any variant" value
      end
  | TString max_length =>
      match value with
      | VStr s =>
          if Nat.eqb (String.length s) 0 then failure "blank value is not allowed" value
          else match max_length with
               | Some n => if (n <? String.length s)%nat
                           then failure "String is longer than max_length characters" value
                           else inr value
               | None => inr value
               end
      | _ => failure "value is not a string" value
      end
  | TInt =>
      match value with
      | VInt _ | VBool _ => inr value
      | VFloat q =>
          if is_integer q then inr (VInt (Qnum q / Zpos (Qden q)))
          else failure "value is not int" value
      | VStr s =>
          match py_int cv s with
          | Some z => inr (VInt z)
          | None => failure "value can't be converted to int" value
          end
      | _ => failure "value is not int" value
      end
  | TFloat =>
      match value with
      | VFloat _ => inr value
      | VInt _ | VBool _ | VStr _ =>
          match py_float cv value with
          | Some q => inr (VFloat q)
          | None => failure "value can't be converted to float" value
          end
      | _ => failure "value is not float" value
      end
  | TDateTime =>
      match value with
      | VDatetime _ => inr value
      | _ => match rfc3339_parse cv value with
             | Some d => inr d
             | None => failure "value is not a RFC 3339 timestamp" value
             end
      end
  | TStrBool =>
      match bool_token value with
      | Some s =>
          let _value := lower (strip s) in
          if str_in _value strbool_convertable
          then inr (VBool (str_in _value strbool_true))
          else failure "value can't be converted to Boolean" value
      | None => failure "value can't be converted to Boolean" value
      end
  | TNull =>
      match value with
      | VNone => inr VNone
      | _ => failure "value should be None" value
      end
  | TAnyDict =>
      match value with
      | VDict _ => inr value
      | _ => failure "value is not a dict" value
      end
  | TList item =>
      match value with
      | VList values =>
          match check_items (check_and_return item) 0 values with
          | ([], checked) => inr (VList checked)
          | (errors, _) => inl (Errors errors)
          end
      | _ => failure "value is not a list" value
      end
  | TOr first second =>
      match check_and_return first value with
      | inr v => inr v
      | inl e1 =>
          match check_and_return second value with
          | inr v => inr v
          | inl e2 => inl (Errors [(Index 0, e1); (Index 1, e2)])
          end
      end
  end.

End Checking.

(** [Key(name)] or [Key(name, default=default)], and a [Dict] of keys with
    the names that [ignore_extra] lets through. *)
Record Key : Type := mkKey {
  key_name : string;
  key_default : option pyval
}.

Record Dict : Type := mkDict {
  dict_keys : list (Key * trafaret);
  ignore : list string
}.

Fixpoint get (data : list (string * pyval)) (k : string) : option pyval :=
  match data with
  | [] => None
  | (k', v) :: rest => if String.eqb k k' then Some v else get rest k
  end.

Section DictChecking.

Variable cv : Conversions.

(** [Key.__call__]: the value under the key's name (or the default) goes
    through the key's trafaret; a key that is absent and has no default is
    reported as required. *)
Definition call_key (key : Key) (t : trafaret) (data : list (string * pyval))
  : DataError + pyval :=
  match get data (key_name key), key_default key with
  | Some v, _ => check_and_return cv t v
  | None, Some default => check_and_return cv t default
  | None, None => inl (Failure "is required" None)
  end.

Fixpoint check_keys (ks : list (Key * trafaret)) (data : list (string * pyval))
  : list (ekey * DataError) * list (string * pyval) :=
  match ks with
  | [] => ([], [])
  | (key, t) :: rest =>
      let '(errors, collect) := check_keys rest data in
      match call_key key t data with
      | inl e => ((Name (key_name key), e) :: errors, collect)
      | inr v => (errors, (key_name key, v) :: collect)
      end
  end.

(** The keys of the payload that no [Key] touched: ignored when listed by
    [ignore_extra], an error otherwise. *)
Fixpoint check_extras (touched ignored : list string) (data : list (string * pyval))
  : list (ekey * DataError) :=
  match data with
  | [] => []
  | (k, _) :: rest =>
      if str_in k touched then check_extras touched ignored rest
      else if str_in k ignored then check_extras touched ignored rest
      else (Name k, Failure (k ++ " is not allowed key") None)
             :: check_extras touched ignored rest
  end.

Definition check_dict (d : Dict) (value : pyval) : DataError + pyval :=
  match value with
  | VDict data =>
      let '(errors, collect) := check_keys (dict_keys d) data in
      let touched := map (fun kt => key_name (fst kt)) (dict_keys d) in
      match (errors ++ check_extras touched (ignore d) data)%list with
      | [] => inr (VDict collect)
      | errs => inl (Errors errs)
      end
  | _ => failure "value is not a dict" value
  end.

End DictChecking.

(** ** Validator compiler *)

Definition enums_of (t : sa_type) : list string :=
  match t with Enum e => e | _ => [] end.

Definition length_of (t : sa_type) : option nat :=
  match t with String_ n => n | _ => None end.

Fixpoint build_trafaret (sa_type : sa_type) : result trafaret :=
  if isinstance sa_type CEnum then ret (TEnum (enums_of sa_type))
  else if isinstance sa_type CText then ret (TString None)
  else if isinstance sa_type CString then ret (TString (length_of sa_type))
  else if isinstance sa_type CInteger then ret TInt
  else if isinstance sa_type CFloat then ret TFloat
  else if isinstance sa_type CDateTime then ret TDateTime
  else if isinstance sa_type CDate then ret TDateTime
  else if isinstance sa_type CBoolean then ret TStrBool
  else if isinstance sa_type CJSON then ret (TOr TAnyDict (TList TAnyDict))
  else if isinstance sa_type CARRAY then
    match sa_type with
    | ARRAY item_type =>
        item_trafaret <- build_trafaret item_type ;;
        ret (TList item_trafaret)
    | _ => raise (NotImplementedError (not_implemented_msg sa_type))
    end
  else raise (NotImplementedError (not_implemented_msg sa_type)).

Definition build_key (name : string) (default : option pyval) : Key :=
  match default with
  | Some d => mkKey name (Some d)
  | None => mkKey name None
  end.

Definition build_field (column : Column) : result trafaret :=
  field <- build_trafaret (type column) ;;
  if nullable column then ret (TOr field TNull) else ret field.

Fixpoint table_trafaret (cols : list (string * Column)) (primary_key : string)
    (skip_pk : bool) : result (list (Key * trafaret)) :=
  match cols with
  | [] => ret []
  | (name_, column) :: rest =>
      if skip_pk && String.eqb (name column) primary_key
      then table_trafaret rest primary_key skip_pk
      else
        let default := server_default column in
        let key := build_key name_ default in
        traf_field <- build_field column ;;
        trafaret <- table_trafaret rest primary_key skip_pk ;;
        ret ((key, traf_field) :: trafaret)
  end.

Definition validator_from_table (table : Table) (primary_key : string)
    (skip_pk : bool) : result Dict :=
  trafaret <- table_trafaret (items table) primary_key skip_pk ;;
  ret (mkDict trafaret [primary_key]).

(** ** Filter compiler *)

Inductive operator : Type :=
  | op_eq | op_ne | op_le | op_lt | op_ge | op_gt | op_in | op_like.

(** A SQL predicate [left <operator> right]. *)
Record clause : Type := BinaryExpression {
  left : Column;
  operator_of : operator;
  right : pyval
}.

(** A [SELECT * FROM froms] whose [where_criteria] are joined by AND. *)
Record Select : Type := mkSelect {
  froms : Table;
  where_criteria : list clause
}.

Definition select (table : Table) : Select := mkSelect table [].

Definition where_ (query : Select) (f : clause) : Select :=
  mkSelect (froms query) (where_criteria query ++ [f])%list.

Fixpoint find_column (cols : list Column) (column_name : string) : option Column :=
  match cols with
  | [] => None
  | col :: rest => if String.eqb column_name (name col) then Some col
                   else find_column rest column_name
  end.

Definition to_column (column_name : string) (table : Table) : result Column :=
  match find_column (c table) column_name with
  | Some col => ret col
  | None => raise (KeyError column_name)
  end.

Definition comparator_t : Type := Column -> pyval -> result clause.

Definition binary (o : operator) : comparator_t :=
  fun column v => ret (BinaryExpression column o v).

Definition op (operation : string) (column : Column) : result comparator_t :=
  if String.eqb operation "in" then
    ret (fun column v =>
           match v with
           | VList _ => ret (BinaryExpression column op_in v)
           | _ => raise (ArgumentError "IN expression list expected")
           end)
  else if String.eqb operation "like" then
    ret (fun column v =>
           match v with
           | VStr s => ret (BinaryExpression column op_like (VStr (s ++ "%")))
           | _ => raise (TypeError "can only concatenate str to str")
           end)
  else if String.eqb operation "eq" then ret (binary op_eq)
  else if String.eqb operation "ne" then ret (binary op_ne)
  else if String.eqb operation "le" then ret (binary op_le)
  else if String.eqb operation "lt" then ret (binary op_lt)
  else if String.eqb operation "ge" then ret (binary op_ge)
  else if String.eqb operation "gt" then ret (binary op_gt)
  else raise (ValueError ("Operation " ++ operation ++ " not supported")).

Definition is_name (k : ekey) : bool :=
  match k with Name _ => true | Index _ => false end.

(** What raising [JsonValidaitonError] with [**exc.as_dict()] raises.  [as_dict()] of
    a [DataError] about one value is a [str], and [**] of a [str] is a
    [TypeError]; so is [**] of a dict with a key that is not a [str], as
    the positions in the errors of [List] and [Or] are.  Only a dict keyed
    by names reaches the constructor. *)
Definition validation_error (exc : DataError) : exn :=
  match exc with
  | Failure _ _ => TypeError "argument after ** must be a mapping, not str"
  | Errors fields =>
      if forallb (fun kv => is_name (fst kv)) fields
      then JsonValidaitonError (Fields exc)
      else TypeError "keywords must be strings"
  end.

Section Filtering.

Variable cv : Conversions.

(** The list comprehension of [check_value]: the first element that fails
    raises, the elements after it are not looked at. *)
Fixpoint check_each (t : trafaret) (values : list pyval) : DataError + list pyval :=
  match values with
  | [] => inr []
  | v :: rest =>
      match check_and_return cv t v with
      | inl exc => inl exc
      | inr v' =>
          match check_each t rest with
          | inl exc => inl exc
          | inr rest' => inr (v' :: rest')
          end
      end
  end.

Definition check_value (column : Column) (value : pyval) : result pyval :=
  trafaret <- build_trafaret (type column) ;;
  match value with
  | VList values =>
      match check_each trafaret values with
      | inl exc => raise (validation_error exc)
      | inr values' => ret (VList values')
      end
  | _ =>
      match check_and_return cv trafaret value with
      | inl exc => raise (validation_error exc)
      | inr value' => ret value'
      end
  end.

(** [operation.items()] after the shorthand has been rewritten: anything
    that is not a dict stands for [{'eq': value}]. *)
Definition operations (operation : pyval) : list (string * pyval) :=
  match operation with
  | VDict d => d
  | value => [("eq", value)]
  end.

Fixpoint apply_operations (column : Column) (ops : list (string * pyval))
    (query : Select) : result Select :=
  match ops with
  | [] => ret query
  | (op_name, value) :: rest =>
      _ <- check_comparator column op_name ;;
      value <- check_value column value ;;
      do_compare <- op op_name column ;;
      f <- do_compare column value ;;
      apply_operations column rest (where_ query f)
  end.

Fixpoint filter_loop (table : Table) (filter : list (string * pyval))
    (query : Select) : result Select :=
  match filter with
  | [] => ret query
  | (column_name, operation) :: rest =>
      column <- to_column column_name table ;;
      query <- apply_operations column (operations operation) query ;;
      filter_loop table rest query
  end.

Definition create_filter (table : Table) (filter : list (string * pyval))
  : result Select :=
  filter_loop table filter (select table).

End Filtering.

(** ** Query validator *)

(** The parsed list query: the keys [validate_query] reads, and the rest. *)
Record ListQuery : Type := mkListQuery {
  _sortField : option string;
  _filters : option (list (string * pyval));
  others : list (string * pyval)
}.

(** [set(columns).difference(possible_columns)].  Python leaves the order of
    a set open; the model lists the names in the order of [columns]. *)
Definition difference (columns possible_columns : list string) : list string :=
  nodup string_dec (filter (fun x => negb (str_in x possible_columns)) columns).

Definition columns_msg (not_valid : list string) : string :=
  "Columns: " ++ String.concat ", " not_valid ++ " do not present in resource".

Section QueryValidation.

(** [_validate_query] of [aiohttp_admin.utils]: it parses the raw request
    into a [ListQuery], or raises. *)
Variable _validate_query : pyval -> result ListQuery.

Definition validate_query (query : pyval) (table : Table) : result ListQuery :=
  let possible_columns := keys table in
  q <- _validate_query query ;;
  let sort_field := _sortField q in
  let filters := match _filters q with Some f => f | None => [] end in
  let columns := map fst filters in
  let columns := match sort_field with
                 | Some s => (columns ++ [s])%list
                 | None => columns
                 end in
  let not_valid := difference columns possible_columns in
  match not_valid with
  | [] => ret q
  | _ => raise (JsonValidaitonError (Message (columns_msg not_valid)))
  end.

End QueryValidation.

(** ** Resource registration ([aiohttp_admin/routes.py]) *)

Module routes.

Record Input : Type := mkInput {
  props : list (string * pyval)
}.

(** The resource model [m]: what [setup_resources] reads of it. *)
Record Model : Type := mkModel {
  name : string;
  fields : list (string * pyval);
  inputs : list (string * Input);
  repr_field : string;
  routes : list string
}.

(** One entry [r] of [schema["resources"]]; a key that is absent is [None]. *)
Record Resource : Type := mkResource {
  model : Model;
  display : option (list string);
  repr : option string;
  label : option string;
  icon : option string;
  bulk_update : option pyval
}.

Record State : Type := mkState {
  state_fields : list (string * pyval);
  state_inputs : list (string * Input);
  list_omit : list string;
  state_repr : string;
  state_label : option string;
  state_icon : option string;
  state_bulk_update : pyval
}.

Record Admin : Type := mkAdmin {
  resources : list Model;
  router : list string;
  state_resources : list (string * State)
}.

Fixpoint setitem {A : Type} (d : list (string * A)) (k : string) (v : A)
  : list (string * A) :=
  match d with
  | [] => [(k, v)]
  | (k', v') :: rest =>
      if String.eqb k k' then (k, v) :: rest else (k', v') :: setitem rest k v
  end.

(** [m.fields.keys() - r["display"]].  The result is a Python set, whose
    order is not fixed; the model lists it in the order of [m.fields], and
    the properties below speak of its members only. *)
Definition keys_minus (fields : list (string * pyval)) (display : list string)
  : list string :=
  filter (fun f => negb (str_in f display)) (map fst fields).

Definition omit_fields_of (m : Model) (r : Resource) : result (list string) :=
  match display r with
  | None => ret []
  | Some shown =>
      let omit_fields := keys_minus (fields m) shown in
      if negb (forallb (fun f => str_in f (map fst (fields m))) omit_fields)
      then raise (ValueError "list_omit includes non-existent field")
      else ret omit_fields
  end.

(** The loop over [m.inputs]: an input that is not omitted is always shown. *)
Definition always_on (omit_fields : list string) (ins : list (string * Input))
  : list (string * Input) :=
  map (fun kv =>
         if negb (str_in (fst kv) omit_fields)
         then (fst kv, mkInput (setitem (props (snd kv)) "alwaysOn" (VStr "alwaysOn")))
         else kv) ins.

(** One turn of the loop.  The model is one object: the entry appended to
    [admin["resources"]] and the state both see the updated inputs. *)
Definition setup_resource (admin : Admin) (r : Resource) : result Admin :=
  let m := model r in
  omit_fields <- omit_fields_of m r ;;
  let inputs' := always_on omit_fields (inputs m) in
  let m' := mkModel (name m) (fields m) inputs' (repr_field m) (routes m) in
  let repr_field := match repr r with Some x => x | None => repr_field m end in
  let state := mkState (fields m) inputs' omit_fields repr_field (label r) (icon r)
                       (match bulk_update r with Some b => b | None => VDict [] end) in
  ret (mkAdmin (resources admin ++ [m'])
               (router admin ++ routes m)
               (setitem (state_resources admin) (name m) state)).

Fixpoint setup_loop (admin : Admin) (rs : list Resource) : result Admin :=
  match rs with
  | [] => ret admin
  | r :: rest =>
      match setup_resource admin r with
      | inl e => inl e
      | inr admin' => setup_loop admin' rest
      end
  end.

Definition setup_resources (admin : Admin) (schema : list Resource) : result Admin :=
  setup_loop (mkAdmin [] (router admin) []) schema.

End routes.

(** ** A concrete runtime

    The conversions on plain decimal notation (no exponent, no special
    float) and on timestamps of the form
    [YYYY-MM-DDTHH:MM:SS(.f+)?(Z|+HH:MM|-HH:MM)], used to run the code on
    concrete requests.  The general theorems below hold for every
    [Conversions]. *)

Definition digit_of (a : ascii) : option Z :=
  let n := nat_of_ascii a in
  if ((48 <=? n)%nat && (n <=? 57)%nat)%bool then Some (Z.of_nat (n - 48)) else None.

Definition is_digit (a : ascii) : bool :=
  match digit_of a with Some _ => true | None => false end.

(** Digits, single underscores allowed between two digits. *)
Fixpoint digits (acc : Z) (s : string) : option Z :=
  match s with
  | EmptyString => Some acc
  | String a rest =>
      match digit_of a with
      | Some d => digits (10 * acc + d) rest
      | None =>
          if Ascii.eqb a "_" then
            match rest with
            | String b _ => if is_digit b then digits acc rest else None
            | EmptyString => None
            end
          else None
      end
  end.

Definition unsigned (s : string) : option Z :=
  match s with
  | String a _ => if is_digit a then digits 0 s else None
  | EmptyString => None
  end.

Definition signed (s : string) : option Z :=
  match s with
  | String "-" rest => option_map Z.opp (unsigned rest)
  | String "+" rest => unsigned rest
  | _ => unsigned s
  end.

Definition decimal_int (s : string) : option Z := signed (strip s).

(** The text before and after the first dot. *)
Fixpoint split_dot (s : string) : string * option string :=
  match s with
  | EmptyString => (EmptyString, None)
  | String a rest =>
      if Ascii.eqb a "." then (EmptyString, Some rest)
      else let '(before, after) := split_dot rest in (String a before, after)
  end.

Definition unsigned_decimal (s : string) : option Q :=
  match split_dot s with
  | (whole, None) => option_map inject_Z (unsigned whole)
  | (whole, Some frac) =>
      let scale := Z.pow 10 (Z.of_nat (String.length frac)) in
      match whole, frac with
      | EmptyString, EmptyString => None
      | EmptyString, _ =>
          option_map (fun f => Qmake f (Z.to_pos scale)) (unsigned frac)
      | _, EmptyString => option_map inject_Z (unsigned whole)
      | _, _ =>
          match unsigned whole, unsigned frac with
          | Some w, Some f => Some (Qmake (w * scale + f) (Z.to_pos scale))
          | _, _ => None
          end
      end
  end.

Definition decimal_float (value : pyval) : option Q :=
  match value with
  | VInt z => Some (inject_Z z)
  | VBool b => Some (inject_Z (if b then 1 else 0))
  | VStr s =>
      match strip s with
      | String "-" rest => option_map Qopp (unsigned_decimal rest)
      | String "+" rest => unsigned_decimal rest
      | rest => unsigned_decimal rest
      end
  | _ => None
  end.

(** [n] digits at the head of [s]: their value and the rest. *)
Fixpoint take_digits (n : nat) (acc : Z) (s : string) : option (Z * string) :=
  match n with
  | O => Some (acc, s)
  | S n' =>
      match s with
      | String a rest =>
          match digit_of a with
          | Some d => take_digits n' (10 * acc + d) rest
          | None => None
          end
      | EmptyString => None
      end
  end.

Definition expect (a : ascii) (s : string) : option string :=
  match s with
  | String b rest => if Ascii.eqb a b then Some rest else None
  | EmptyString => None
  end.

Fixpoint skip_digits (s : string) : string :=
  match s with
  | String a rest => if is_digit a then skip_digits rest else s
  | EmptyString => s
  end.

Definition is_leap (y : Z) : bool :=
  (Z.eqb (y mod 4) 0 && negb (Z.eqb (y mod 100) 0)) || Z.eqb (y mod 400) 0.

Definition days_in_month (y m : Z) : Z :=
  if Z.eqb m 2 then (if is_leap y then 29 else 28)
  else if Z.eqb m 4 || Z.eqb m 6 || Z.eqb m 9 || Z.eqb m 11 then 30 else 31.

Definition opt_bind {A B : Type} (o : option A) (k : A -> option B) : option B :=
  match o with Some a => k a | None => None end.

Definition timestamp_ok (s : string) : bool :=
  let parsed :=
    opt_bind (take_digits 4 0 s) (fun '(y, s) =>
    opt_bind (expect "-" s) (fun s =>
    opt_bind (take_digits 2 0 s) (fun '(mo, s) =>
    opt_bind (expect "-" s) (fun s =>
    opt_bind (take_digits 2 0 s) (fun '(d, s) =>
    opt_bind (expect "T" s) (fun s =>
    opt_bind (take_digits 2 0 s) (fun '(h, s) =>
    opt_bind (expect ":" s) (fun s =>
    opt_bind (take_digits 2 0 s) (fun '(mi, s) =>
    opt_bind (expect ":" s) (fun s =>
    opt_bind (take_digits 2 0 s) (fun '(sec, s) =>
    let s := match s with
             | String "." (String a rest) =>
                 if is_digit a then skip_digits rest else s
             | _ => s
             end in
    let date_ok :=
      (1 <=? y)%Z && (1 <=? mo)%Z && (mo <=? 12)%Z && (1 <=? d)%Z
      && (d <=? days_in_month y mo)%Z && (h <? 24)%Z && (mi <? 60)%Z
      && (sec <? 60)%Z in
    match s with
    | String "Z" EmptyString => Some date_ok
    | String sign s =>
        if Ascii.eqb sign "+" || Ascii.eqb sign "-" then
          opt_bind (take_digits 2 0 s) (fun '(oh, s) =>
          opt_bind (expect ":" s) (fun s =>
          opt_bind (take_digits 2 0 s) (fun '(om, s) =>
          match s with
          | EmptyString => Some (date_ok && (oh <? 24)%Z && (om <? 60)%Z)
          | _ => None
          end)))
        else None
    | EmptyString => None
    end))))))))))) in
  match parsed with Some b => b | None => false end.

Definition timestamp (value : pyval) : option pyval :=
  match value with
  | VStr s => if timestamp_ok s then Some (VDatetime s) else None
  | _ => None
  end.

Definition plain : Conversions := mkConversions decimal_int decimal_float timestamp.

(** ** Sample data *)

Definition age : Column := mkColumn "age" Integer false None.
Definition name_column : Column := mkColumn "name" (String_ (Some 30)) false None.
Definition nick : Column := mkColumn "nick" Integer true None.
Definition id_column : Column := mkColumn "id" Integer false None.
Definition created : Column := mkColumn "created" DateTime false None.
Definition born : Column := mkColumn "born" Date false None.
Definition notes : Column := mkColumn "notes" Text true None.

Definition people : Table :=
  mkTable "people" [id_column; name_column; age; nick; created; born; notes].

Definition users : Table := mkTable "users" [id_column; name_column; age; nick].

(** The raise-or-validate outcome of checking [payload] with the validator
    compiled from [table]. *)
Definition validate_payload (cv : Conversions) (table : Table) (primary_key : string)
    (skip_pk : bool) (payload : pyval) : result (DataError + pyval) :=
  d <- validator_from_table table primary_key skip_pk ;;
  ret (check_dict cv d payload).

(** The operator name a predicate was built from. *)
Definition operator_name (o : operator) : string :=
  match o with
  | op_eq => "eq" | op_ne => "ne" | op_le => "le" | op_lt => "lt"
  | op_ge => "ge" | op_gt => "gt" | op_in => "in" | op_like => "like"
  end.

(** The (column, operator, value) entries of a filter request, in the order
    the request lists them: a column mapped to an operator map contributes
    one entry per operator, a column mapped to a bare value contributes the
    one entry (column, "eq", value). *)
Fixpoint entries (filter : list (string * pyval)) : list (string * string * pyval) :=
  match filter with
  | [] => []
  | (column_name, VDict by_operator) :: rest =>
      (map (fun ov => (column_name, fst ov, snd ov)) by_operator ++ entries rest)%list
  | (column_name, value) :: rest => (column_name, "eq", value) :: entries rest
  end.

(** [isinstance(operation, dict)]. *)
Definition is_dict (v : pyval) : bool :=
  match v with VDict _ => true | _ => false end.

(** The comparison operand: the checked value, with "%" appended for
    [like]. *)
Definition operand (op_name : string) (checked : pyval) : pyval :=
  if String.eqb op_name "like"
  then match checked with VStr s => VStr (s ++ "%") | _ => checked end
  else checked.

(** [checked] is [value] as validated for [column]: by the validator of the
    column's type, element by element when the value is a list. *)
Definition validated_as (cv : Conversions) (column : Column) (value checked : pyval)
  : Prop :=
  exists validator,
    build_trafaret (type column) = inr validator /\
    match value with
    | VList values =>
        exists checked_values,
          checked = VList checked_values /\
          Forall2 (fun v v' => check_and_return cv validator v = inr v')
                  values checked_values
    | _ => check_and_return cv validator value = inr checked
    end.

(** [cl] is the predicate of the entry: on the table's column of the
    entry's name, with the entry's operator, which the column's type
    permits, against the entry's validated value. *)
Definition predicate_of (cv : Conversions) (table : Table)
    (entry : string * string * pyval) (cl : clause) : Prop :=
  let '(column_name, op_name, value) := entry in
  to_column column_name table = inr (left cl) /\
  name (left cl) = column_name /\
  In (left cl) (c table) /\
  operator_name (operator_of cl) = op_name /\
  succeeds (check_comparator (left cl) op_name) = true /\
  exists checked, check_value cv (left cl) value = inr checked /\
                  validated_as cv (left cl) value checked /\
                  right cl = operand op_name checked.

(** The column names a parsed list query refers to: the filter keys, then
    the sort field. *)
Definition referenced (q : ListQuery) : list string :=
  (map fst (match _filters q with Some f => f | None => [] end)
   ++ match _sortField q with Some s => [s] | None => [] end)%list.

(** The resource entry [r] with another "display" list. *)
Definition with_display (r : routes.Resource) (shown : option (list string))
  : routes.Resource :=
  routes.mkResource (routes.model r) shown (routes.repr r) (routes.label r)
                    (routes.icon r) (routes.bulk_update r).

(** The field names of the compiled table validator. *)
Definition field_names (d : Dict) : list string :=
  map (fun kt => key_name (fst kt)) (dict_keys d).

(** ** Notions used to state further properties *)

(** The operation names [op] has a comparator for. *)
Definition known_operations : list string :=
  ["in"; "like"; "eq"; "ne"; "le"; "lt"; "ge"; "gt"].

(** A type for which every isinstance chain finds a case, down through the
    item types of arrays. *)
Fixpoint supported (t : sa_type) : bool :=
  match t with
  | LargeBinary => false
  | ARRAY item_type => supported item_type
  | _ => true
  end.

(** The item type at the bottom of nested arrays. *)
Fixpoint innermost (t : sa_type) : sa_type :=
  match t with
  | ARRAY item_type => innermost item_type
  | _ => t
  end.

Definition is_str (v : pyval) : bool :=
  match v with VStr _ => true | _ => false end.

Definition is_list (v : pyval) : bool :=
  match v with VList _ => true | _ => false end.

(** What the comparator of [op_name] can be applied to: [in] wants a list,
    [like] a string, the others take any value. *)
Definition operand_ok (op_name : string) (checked : pyval) : bool :=
  if String.eqb op_name "in" then is_list checked
  else if String.eqb op_name "like" then is_str checked
  else true.

(** One (operator, value) pair compiles on [column]. *)
Definition op_compiles (cv : Conversions) (column : Column) (ov : string * pyval)
  : bool :=
  succeeds (check_comparator column (fst ov)) &&
  match check_value cv column (snd ov) with
  | inl _ => false
  | inr checked => operand_ok (fst ov) checked
  end.

(** One entry of the filter map compiles on [table]. *)
Definition item_compiles (cv : Conversions) (table : Table) (item : string * pyval)
  : bool :=
  match find_column (c table) (fst item) with
  | None => false
  | Some column => forallb (op_compiles cv column) (operations (snd item))
  end.

(** The exceptions the model of filter compilation ends in; it serves to
    tell where a [KeyError] can come from. *)
Definition filter_error (table : Table) (filter : list (string * pyval)) (e : exn)
  : Prop :=
  match e with
  | KeyError k => In k (map fst filter) /\ ~ In k (keys table)
  | Exception _ | JsonValidaitonError (Fields _) | TypeError _ | ArgumentError _ => True
  | _ => False
  end.

Definition is_key_error (e : exn) : bool :=
  match e with KeyError _ => true | _ => false end.

(** The columns [validator_from_table] makes fields of. *)
Definition kept_columns (table : Table) (primary_key : string) (skip_pk : bool)
  : list Column :=
  if skip_pk
  then filter (fun col => negb (String.eqb (name col) primary_key)) (c table)
  else c table.

(** The validator field [kt] is the one compiled from the column [col]. *)
Definition field_of (col : Column) (kt : Key * trafaret) : Prop :=
  fst kt = mkKey (name col) (server_default col) /\ build_field col = inr (snd kt).

(** The query [q] with the criteria of [r] added after its own. *)
Definition and_also (q r : Select) : Select :=
  mkSelect (froms q) (where_criteria q ++ where_criteria r)%list.

Definition map_result {A B : Type} (f : A -> B) (m : result A) : result B :=
  match m with
  | inl e => inl e
  | inr a => inr (f a)
  end.

(** Lookup in a dictionary kept as an association list. *)
Fixpoint getitem {A : Type} (d : list (string * A)) (k : string) : option A :=
  match d with
  | [] => None
  | (k', v) :: rest => if String.eqb k k' then Some v else getitem rest k
  end.

(** The state [setup_resources] records for the resource entry [r]. *)
Definition state_of (r : routes.Resource) : routes.State :=
  let m := routes.model r in
  let omit_fields := match routes.display r with
                     | None => []
                     | Some shown => routes.keys_minus (routes.fields m) shown
                     end in
  routes.mkState (routes.fields m)
                 (routes.always_on omit_fields (routes.inputs m))
                 omit_fields
                 (match routes.repr r with Some x => x | None => routes.repr_field m end)
                 (routes.label r) (routes.icon r)
                 (match routes.bulk_update r with Some b => b | None => VDict [] end).

(** The model of [r] as [setup_resources] leaves it: its inputs updated. *)
Definition registered (r : routes.Resource) : routes.Model :=
  let m := routes.model r in
  routes.mkModel (routes.name m) (routes.fields m)
                 (routes.state_inputs (state_of r))
                 (routes.repr_field m) (routes.routes m).

(** The last entry of the schema whose model is called [k]. *)
Fixpoint last_named (schema : list routes.Resource) (k : string)
  : option routes.Resource :=
  match schema with
  | [] => None
  | r :: rest =>
      match last_named rest k with
      | Some r' => Some r'
      | None => if String.eqb k (routes.name (routes.model r)) then Some r else None
      end
  end.

Definition people_model : routes.Model :=
  routes.mkModel "people"
    [("id", VStr "NumberField"); ("name", VStr "TextField"); ("age", VStr "NumberField")]
    [("id", routes.mkInput [("source", VStr "id")]);
     ("name", routes.mkInput [("alwaysOn", VBool false); ("source", VStr "name")]);
     ("age", routes.mkInput [])]
    "id" ["/people/list"; "/people/get_one"].

Definition pets_model : routes.Model :=
  routes.mkModel "pets" [("id", VStr "NumberField")]
    [("id", routes.mkInput [])] "id" ["/pets/list"].

Definition sample_schema : list routes.Resource :=
  [routes.mkResource people_model (Some ["id"; "name"; "ghost"]) (Some "name")
                     (Some "People") None None;
   routes.mkResource pets_model None None None None None].

Definition bare_admin : routes.Admin :=
  routes.mkAdmin [pets_model] ["/"] [("old", state_of (routes.mkResource pets_model None None None None None))].

(** What [setup_resources] makes of [bare_admin] and [sample_schema]. *)
Definition sample_admin : routes.Admin :=
  Eval vm_compute in
    match routes.setup_resources bare_admin sample_schema with
    | inr admin => admin
    | inl _ => bare_admin
    end.

(** * Properties *)

(** ** Generic facts *)

Lemma str_in_In (s : string) (l : list string) : str_in s l = true <-> In s l.
Proof.
  unfold str_in. rewrite existsb_exists. split.
  - intros [x [Hx He]]. apply String.eqb_eq in He. now subst.
  - intros H. exists s. split; [assumption | apply String.eqb_refl].
Qed.

Lemma str_in_not_In (s : string) (l : list string) : str_in s l = false <-> ~ In s l.
Proof.
  rewrite <- str_in_In. destruct (str_in s l); split; congruence.
Qed.

Lemma bind_inr {A B : Type} (m : result A) (k : A -> result B) (b : B) :
  bind m k = inr b -> exists a, m = inr a /\ k a = inr b.
Proof.
  destruct m as [e | a]; simpl; intros H; [discriminate | eauto].
Qed.

Lemma bind_inl {A B : Type} (m : result A) (k : A -> result B) (e : exn) :
  m = inl e -> bind m k = inl e.
Proof. intros ->. reflexivity. Qed.

Ltac inv_bind H a Ha :=
  apply bind_inr in H; destruct H as [a [Ha H]].

(** ** Operator registry *)

(** C1.  What [check_comparator] accepts, by column type.  String and text
    columns accept exactly eq, ne, like; integer columns eq, ne, lt, le, gt,
    ge, in; float and date columns eq, ne, lt, le, gt, ge; boolean, enum,
    JSON and array columns accept nothing.  A datetime column, which the
    specification lists with date, accepts no operator either:
    [comparator_map] has no entry for the class [DateTime]. *)
Theorem check_comparator_table (column : Column) (comparator : string) :
  succeeds (check_comparator column comparator) =
  match type column with
  | String_ _ | Text => str_in comparator ["eq"; "ne"; "like"]
  | Integer => str_in comparator ["eq"; "ne"; "lt"; "le"; "gt"; "ge"; "in"]
  | Float | Date => str_in comparator ["eq"; "ne"; "lt"; "le"; "gt"; "ge"]
  | DateTime => false
  | Enum _ | Boolean | JSON | ARRAY _ | LargeBinary => false
  end.
Proof.
  unfold check_comparator.
  destruct (type column); cbn -[str_in]; try reflexivity;
    destruct (str_in comparator _); reflexivity.
Qed.

(** The same request on a date and on a datetime column. *)
Example check_comparator_date_datetime :
  check_comparator born "gt" = inr tt /\
  check_comparator created "gt"
    = inl (Exception "Filtering for column type DATETIME not supported").
Proof. split; reflexivity. Qed.

(** ** UI field kinds *)

(** C3.  The tag [build_type_mapper] returns, by column type: enum, string
    and integer give "string", float "float", datetime "datetime", date
    "date", boolean "boolean", JSON "json", array "embedded_list".  A text
    column gives "string" and not "text": the test for [String], which every
    [Text] passes, comes first. *)
Theorem build_type_mapper_table (t : sa_type) :
  build_type_mapper t =
  match t with
  | Enum _ | String_ _ | Integer => inr "string"
  | Text => inr "string"
  | Float => inr "float"
  | DateTime => inr "datetime"
  | Date => inr "date"
  | Boolean => inr "boolean"
  | JSON => inr "json"
  | ARRAY _ => inr "embedded_list"
  | LargeBinary => inl (NotImplementedError (not_implemented_msg t))
  end.
Proof. destruct t; reflexivity. Qed.

(** The validator dispatch does test [Text] before [String]. *)
Example build_trafaret_text_before_string :
  build_trafaret Text = inr (TString None) /\
  build_trafaret (String_ (Some 30)) = inr (TString (Some 30)) /\
  build_type_mapper Text = inr "string".
Proof. repeat split; reflexivity. Qed.

(** ** Filter compiler *)

Lemma find_column_absent (cols : list Column) (column_name : string) :
  ~ In column_name (map name cols) -> find_column cols column_name = None.
Proof.
  induction cols as [| col rest IH]; simpl; intros H; [reflexivity |].
  destruct (String.eqb column_name (name col)) eqn:E.
  - apply String.eqb_eq in E. exfalso. apply H. left. now symmetry.
  - apply IH. intros Hin. apply H. now right.
Qed.

Lemma to_column_absent (table : Table) (column_name : string) :
  ~ In column_name (keys table) -> to_column column_name table = inl (KeyError column_name).
Proof.
  intros H. unfold to_column. now rewrite (find_column_absent _ _ H).
Qed.

Lemma find_column_some (cols : list Column) (column_name : string) (col : Column) :
  find_column cols column_name = Some col ->
  name col = column_name /\ In col cols.
Proof.
  induction cols as [| x rest IH]; simpl; intros H; [discriminate |].
  destruct (String.eqb column_name (name x)) eqn:E.
  - injection H as <-. apply String.eqb_eq in E. auto.
  - destruct (IH H). auto.
Qed.

Lemma check_each_Forall2 (cv : Conversions) (t : trafaret) (values checked : list pyval) :
  check_each cv t values = inr checked <->
  Forall2 (fun v v' => check_and_return cv t v = inr v') values checked.
Proof.
  revert checked. induction values as [| v rest IH]; intros checked; simpl.
  - split.
    + intros H. injection H as <-. constructor.
    + intros H. inversion H. reflexivity.
  - destruct (check_and_return cv t v) as [e | v'] eqn:Hv.
    + split; [discriminate |]. intros H. inversion H; subst. congruence.
    + destruct (check_each cv t rest) as [e | rest'] eqn:Hrest.
      * split; [discriminate |]. intros H. inversion H as [| ? ? ? l' ? Hl]; subst.
        apply IH in Hl. discriminate Hl.
      * split.
        -- intros H. injection H as <-. constructor; [exact Hv | now apply IH].
        -- intros H. inversion H as [| ? y ? l' Hy Hl]; subst.
           apply IH in Hl. congruence.
Qed.

Lemma check_value_validated (cv : Conversions) (column : Column)
    (value checked : pyval) :
  check_value cv column value = inr checked -> validated_as cv column value checked.
Proof.
  unfold check_value, validated_as.
  destruct (build_trafaret (type column)) as [e | validator]; simpl; [discriminate |].
  intros H. exists validator. split; [reflexivity |].
  destruct value;
    try (destruct (check_and_return cv validator _); simpl in H;
         [discriminate | now injection H as <-]).
  destruct (check_each cv validator items0) as [e | vs] eqn:E; simpl in H;
    [discriminate |].
  injection H as <-. exists vs. split; [reflexivity | now apply check_each_Forall2].
Qed.

Lemma op_clause (op_name : string) (column col : Column) (cmp : comparator_t)
    (v : pyval) (f : clause) :
  op op_name column = inr cmp -> cmp col v = inr f ->
  left f = col /\ operator_name (operator_of f) = op_name /\ right f = operand op_name v.
Proof.
  unfold op, operand, binary, ret, raise.
  repeat match goal with
         | |- context [String.eqb op_name ?s] =>
             let E := fresh "E" in
             destruct (String.eqb op_name s) eqn:E;
             [apply String.eqb_eq in E; subst op_name |]
         end;
    intros H1 H2; try discriminate; injection H1 as <-;
    try (destruct v; try discriminate);
    injection H2 as <-; simpl; repeat split; reflexivity.
Qed.

Section FilterFacts.

Variable cv : Conversions.

Lemma filter_loop_app (table : Table) (f1 f2 : list (string * pyval)) (q : Select) :
  filter_loop cv table (f1 ++ f2) q
  = bind (filter_loop cv table f1 q) (filter_loop cv table f2).
Proof.
  revert q. induction f1 as [| [cn operation] rest IH]; intros q; simpl; [reflexivity |].
  destruct (to_column cn table) as [e | column]; simpl; [reflexivity |].
  destruct (apply_operations cv column (operations operation) q) as [e | q']; simpl;
    [reflexivity | apply IH].
Qed.

Lemma apply_operations_clauses (table : Table) (column_name : string) (column : Column)
    (ops : list (string * pyval)) (q q' : Select) :
  to_column column_name table = inr column ->
  apply_operations cv column ops q = inr q' ->
  froms q' = froms q /\
  exists cls, where_criteria q' = (where_criteria q ++ cls)%list /\
              Forall2 (predicate_of cv table)
                      (map (fun ov => (column_name, fst ov, snd ov)) ops) cls.
Proof.
  intros Hcol. revert q. induction ops as [| [op_name value] rest IH]; intros q H.
  - simpl in H. injection H as <-. split; [reflexivity |].
    exists []. rewrite app_nil_r. split; [reflexivity | constructor].
  - simpl in H.
    inv_bind H u Hu. inv_bind H checked Hchecked.
    inv_bind H cmp Hcmp. inv_bind H f Hf.
    destruct (IH _ H) as [Hfrom [cls [Hwhere Hall]]].
    destruct (op_clause _ _ _ _ _ _ Hcmp Hf) as [Hl [Ho Hr]].
    split; [rewrite Hfrom; reflexivity |].
    exists (f :: cls). split.
    + rewrite Hwhere. simpl. now rewrite <- app_assoc.
    + simpl. constructor; [| exact Hall].
      unfold predicate_of. rewrite Hl.
      pose proof Hcol as Hfind. unfold to_column in Hfind.
      destruct (find_column (c table) column_name) as [col |] eqn:Ef;
        [| discriminate].
      injection Hfind as ->. destruct (find_column_some _ _ _ Ef) as [Hn Hin].
      destruct u. repeat split; try assumption.
      * now rewrite Hu.
      * exists checked. repeat split; try assumption.
        now apply check_value_validated.
Qed.

Lemma entries_cons (column_name : string) (operation : pyval)
    (rest : list (string * pyval)) :
  entries ((column_name, operation) :: rest)
  = (map (fun ov => (column_name, fst ov, snd ov)) (operations operation)
     ++ entries rest)%list.
Proof. destruct operation; reflexivity. Qed.

Lemma filter_loop_clauses (table : Table) (filter : list (string * pyval))
    (q q' : Select) :
  filter_loop cv table filter q = inr q' ->
  froms q' = froms q /\
  exists cls, where_criteria q' = (where_criteria q ++ cls)%list /\
              Forall2 (predicate_of cv table) (entries filter) cls.
Proof.
  revert q. induction filter as [| [cn operation] rest IH]; intros q H.
  - simpl in H. injection H as <-. split; [reflexivity |].
    exists []. rewrite app_nil_r. split; [reflexivity | constructor].
  - simpl in H. inv_bind H column Hcolumn. inv_bind H q1 Hq1.
    destruct (apply_operations_clauses _ _ _ _ _ _ Hcolumn Hq1) as [Hf1 [cls1 [Hw1 Hall1]]].
    destruct (IH _ H) as [Hf2 [cls2 [Hw2 Hall2]]].
    split; [congruence |].
    exists (cls1 ++ cls2)%list. split.
    + rewrite Hw2, Hw1. now rewrite <- app_assoc.
    + rewrite entries_cons. apply Forall2_app; assumption.
Qed.

(** C4.  A filter request that compiles yields a query on the table whose
    WHERE criteria, joined by AND, are exactly one predicate per (column,
    operator, value) entry, in the order the filter map lists them.  For
    {"age": {"gt": 18, "lt": 65}} this is WHERE age > 18 AND age < 65. *)
Theorem create_filter_predicates (table : Table) (filter : list (string * pyval))
    (query : Select) :
  create_filter cv table filter = inr query ->
  froms query = table /\
  Datatypes.length (where_criteria query) = Datatypes.length (entries filter) /\
  Forall2 (predicate_of cv table) (entries filter) (where_criteria query).
Proof.
  unfold create_filter. intros H.
  destruct (filter_loop_clauses _ _ _ _ H) as [Hf [cls [Hw Hall]]].
  simpl in Hw, Hf. subst cls. repeat split; try assumption.
  symmetry. eapply Forall2_length; eassumption.
Qed.

End FilterFacts.

Example create_filter_age_range :
  create_filter plain users [("age", VDict [("gt", VInt 18); ("lt", VInt 65)])]
  = inr (mkSelect users [BinaryExpression age op_gt (VInt 18);
                         BinaryExpression age op_lt (VInt 65)]).
Proof. reflexivity. Qed.

Lemma create_filter_predicates_witness :
  let filter := [("name", VStr "Bob"); ("age", VDict [("gt", VInt 18); ("lt", VInt 65)])] in
  let query := mkSelect users [BinaryExpression name_column op_eq (VStr "Bob");
                               BinaryExpression age op_gt (VInt 18);
                               BinaryExpression age op_lt (VInt 65)] in
  create_filter plain users filter = inr query /\
  entries filter = [("name", "eq", VStr "Bob"); ("age", "gt", VInt 18);
                    ("age", "lt", VInt 65)] /\
  froms query = users /\
  Datatypes.length (where_criteria query) = Datatypes.length (entries filter) /\
  Forall2 (predicate_of plain users) (entries filter) (where_criteria query).
Proof.
  split; [reflexivity |]. split; [reflexivity |].
  exact (create_filter_predicates plain users
           [("name", VStr "Bob"); ("age", VDict [("gt", VInt 18); ("lt", VInt 65)])]
           _ eq_refl).
Defined.

(** C5, as stated, fails when the bare value is itself a dict: the empty
    dict is read as an empty operator map and compiles to the unfiltered
    query, while the explicit form fails on the value. *)
Lemma create_filter_shorthand_dict_value :
  create_filter plain users [("age", VDict [])] = inr (select users) /\
  create_filter plain users [("age", VDict [("eq", VDict [])])]
  = inl (TypeError "argument after ** must be a mapping, not str").
Proof. split; reflexivity. Qed.

(** C5.  For a bare value that is not a dict, the shorthand filter {c: v}
    compiles to the same outcome, query or exception, as {c: {"eq": v}}. *)
Theorem create_filter_shorthand (cv : Conversions) (table : Table)
    (column_name : string) (value : pyval) :
  is_dict value = false ->
  create_filter cv table [(column_name, value)]
  = create_filter cv table [(column_name, VDict [("eq", value)])].
Proof.
  intros H. unfold create_filter. simpl.
  destruct value; try reflexivity. discriminate H.
Qed.

Lemma create_filter_shorthand_witness :
  create_filter plain users [("name", VStr "Bob")]
  = create_filter plain users [("name", VDict [("eq", VStr "Bob")])].
Proof.
  exact (create_filter_shorthand plain users "name" (VStr "Bob") eq_refl).
Defined.

(** C6, as stated, fails when an entry before the unknown column is itself
    rejected: that entry's exception is the one raised. *)
Lemma create_filter_unknown_column_later :
  create_filter plain users
    [("age", VDict [("like", VStr "x")]); ("ghost_column", VInt 1)]
  = inl (Exception "Filtering for column type INTEGER not supported").
Proof. reflexivity. Qed.

(** C6.  A filter request that names a column the table does not have never
    compiles; when the entries before it compile, the exception is the
    [KeyError] that names the column, as for {"ghost_column": 1}. *)
Theorem create_filter_unknown_column (cv : Conversions) (table : Table)
    (before after : list (string * pyval)) (column_name : string) (operation : pyval) :
  ~ In column_name (keys table) ->
  (exists e, create_filter cv table (before ++ (column_name, operation) :: after) = inl e) /\
  (forall q, filter_loop cv table before (select table) = inr q ->
             create_filter cv table (before ++ (column_name, operation) :: after)
             = inl (KeyError column_name)).
Proof.
  intros Habsent. unfold create_filter. rewrite filter_loop_app.
  assert (Hstep : forall q, filter_loop cv table ((column_name, operation) :: after) q
                            = inl (KeyError column_name)).
  { intros q. simpl. now rewrite (to_column_absent _ _ Habsent). }
  split.
  - destruct (filter_loop cv table before (select table)) as [e | q]; simpl.
    + now exists e.
    + exists (KeyError column_name). apply Hstep.
  - intros q Hq. rewrite Hq. simpl bind. apply Hstep.
Qed.

Lemma create_filter_unknown_column_witness :
  create_filter plain users [("ghost_column", VInt 1)] = inl (KeyError "ghost_column").
Proof.
  assert (Habsent : ~ In "ghost_column" (keys users)).
  { simpl. intros [H | [H | [H | [H | []]]]]; discriminate H. }
  exact (proj2 (create_filter_unknown_column plain users [] [] "ghost_column"
                  (VInt 1) Habsent) (select users) eq_refl).
Defined.

(** ** Field validators *)

(** C7, as stated, fails for filter values: [check_value] builds the
    validator from the column's type alone, so a null filter value on a
    nullable integer column does not pass, and compilation fails. *)
Lemma check_value_null_on_nullable_column :
  nullable nick = true /\
  check_and_return plain TInt VNone = inl (Failure "value is not int" (Some VNone)) /\
  check_value plain nick VNone
  = inl (TypeError "argument after ** must be a mapping, not str") /\
  create_filter plain users [("nick", VNone)]
  = inl (TypeError "argument after ** must be a mapping, not str").
Proof. repeat split; reflexivity. Qed.

(** C7.  The field validator [build_field] derives from a nullable column
    accepts an explicit null, and accepts whatever the column's base-type
    validator accepts, with the same result.  Filter values are checked by
    [check_value] against the base type alone: the outcome does not depend
    on the column being nullable. *)
Theorem nullable_field_accepts_null (cv : Conversions) (column : Column)
    (field : trafaret) :
  nullable column = true ->
  build_field column = inr field ->
  (exists r, check_and_return cv field VNone = inr r) /\
  (forall base value r,
      build_trafaret (type column) = inr base ->
      check_and_return cv base value = inr r ->
      check_and_return cv field value = inr r) /\
  (forall value,
      check_value cv column value
      = check_value cv (mkColumn (name column) (type column) false
                                 (server_default column)) value).
Proof.
  intros Hnull Hfield. unfold build_field in Hfield. rewrite Hnull in Hfield.
  destruct (build_trafaret (type column)) as [e | base] eqn:Hbase; simpl in Hfield;
    [discriminate |].
  injection Hfield as <-. repeat split.
  - simpl. destruct (check_and_return cv base VNone) as [e | r]; eauto.
  - intros base' value r Hb Hr. injection Hb as <-. simpl. now rewrite Hr.
Qed.

Lemma nullable_field_accepts_null_witness :
  (exists r, check_and_return plain (TOr TInt TNull) VNone = inr r) /\
  (forall base value r,
      build_trafaret (type nick) = inr base ->
      check_and_return plain base value = inr r ->
      check_and_return plain (TOr TInt TNull) value = inr r) /\
  (forall value,
      check_value plain nick value
      = check_value plain (mkColumn (name nick) (type nick) false
                                      (server_default nick)) value).
Proof.
  exact (nullable_field_accepts_null plain nick (TOr TInt TNull) eq_refl eq_refl).
Defined.

Lemma check_items_keys (check : pyval -> DataError + pyval) (index : nat)
    (values : list pyval) :
  forallb (fun kv => is_name (fst kv)) (fst (check_items check index values))
  = match fst (check_items check index values) with [] => true | _ => false end.
Proof.
  revert index. induction values as [| v rest IH]; intros index; simpl; [reflexivity |].
  specialize (IH (S index)).
  destruct (check_items check (S index) rest) as [errors checked]. simpl in IH.
  destruct (check v); simpl; [reflexivity | exact IH].
Qed.

Lemma validation_error_of_check (cv : Conversions) (t : trafaret) (value : pyval)
    (exc : DataError) :
  check_and_return cv t value = inl exc ->
  exists msg, validation_error exc = TypeError msg.
Proof.
  assert (Hleaf : forall msg v (e : DataError),
             @failure pyval msg v = inl e -> exists m, validation_error e = TypeError m).
  { intros msg v e H. injection H as <-. simpl. eauto. }
  destruct t; simpl; intros H;
    repeat match type of H with
           | failure _ _ = inl _ => exact (Hleaf _ _ _ H)
           | inr _ = inl _ => discriminate H
           | context [match ?x with _ => _ end] => destruct x eqn:?
           | context [if ?x then _ else _] => destruct x eqn:?
           end;
    try (injection H as <-; simpl; eauto; fail).
  injection H as <-.
  match goal with
  | E : check_items ?f ?n ?l = (?errs, _) |- _ =>
      pose proof (check_items_keys f n l) as Hk; rewrite E in Hk; cbn [fst] in Hk
  end.
  unfold validation_error. rewrite Hk. eauto.
Qed.

Lemma check_each_first_failure (cv : Conversions) (t : trafaret)
    (good checked rest : list pyval) (bad : pyval) (e : DataError) :
  check_each cv t good = inr checked ->
  check_and_return cv t bad = inl e ->
  check_each cv t (good ++ bad :: rest) = inl e.
Proof.
  revert checked. induction good as [| v vs IH]; intros checked Hgood Hbad; simpl.
  - now rewrite Hbad.
  - simpl in Hgood. destruct (check_and_return cv t v) as [e' | v']; [discriminate |].
    destruct (check_each cv t vs) as [e' | vs'] eqn:Hvs; [discriminate |].
    now rewrite (IH vs' eq_refl Hbad).
Qed.

(** C8.  What the code does when a filter value fails validation, where the
    claim has every failure collected in one validation error: on a list
    value, the first element that fails ends the check, whatever follows
    it; and the exception raised is a [TypeError] from unpacking the
    error, which carries none of the failures. *)
Theorem check_value_first_failure (cv : Conversions) (column : Column) (t : trafaret)
    (good checked rest : list pyval) (bad : pyval) (e : DataError) :
  build_trafaret (type column) = inr t ->
  check_each cv t good = inr checked ->
  check_and_return cv t bad = inl e ->
  check_value cv column (VList (good ++ bad :: rest)) = inl (validation_error e) /\
  exists msg, validation_error e = TypeError msg.
Proof.
  intros Ht Hgood Hbad. split.
  - unfold check_value. rewrite Ht. simpl.
    now rewrite (check_each_first_failure cv t good checked rest bad e Hgood Hbad).
  - exact (validation_error_of_check cv t bad e Hbad).
Qed.

Lemma check_value_first_failure_witness :
  check_value plain age (VList ([VInt 3] ++ VNone :: [VDict []]))
  = inl (validation_error (Failure "value is not int" (Some VNone))) /\
  exists msg, validation_error (Failure "value is not int" (Some VNone)) = TypeError msg.
Proof.
  exact (check_value_first_failure plain age TInt [VInt 3] [VInt 3] [VDict []] VNone
           (Failure "value is not int" (Some VNone)) eq_refl eq_refl eq_refl).
Defined.

(** Two invalid elements, and two invalid entries: one [TypeError], which
    names neither. *)
Example create_filter_validation_failures :
  check_and_return plain TInt VNone = inl (Failure "value is not int" (Some VNone)) /\
  check_and_return plain TInt (VDict [])
  = inl (Failure "value is not int" (Some (VDict []))) /\
  create_filter plain users [("age", VDict [("in", VList [VNone; VDict []])])]
  = inl (TypeError "argument after ** must be a mapping, not str") /\
  create_filter plain users [("age", VNone); ("id", VList [VDict []])]
  = inl (TypeError "argument after ** must be a mapping, not str").
Proof. repeat split; reflexivity. Qed.

(** ** Query validator *)

Lemma difference_In (columns possible : list string) (x : string) :
  In x (difference columns possible) <-> In x columns /\ ~ In x possible.
Proof.
  unfold difference. rewrite nodup_In, filter_In, negb_true_iff, str_in_not_In.
  reflexivity.
Qed.

Lemma difference_nil (columns possible : list string) :
  difference columns possible = [] <-> Forall (fun x => In x possible) columns.
Proof.
  rewrite Forall_forall. split.
  - intros Hnil x Hx. destruct (in_dec string_dec x possible) as [Hin | Hout];
      [assumption |].
    assert (H : In x (difference columns possible)) by (apply difference_In; auto).
    rewrite Hnil in H. destruct H.
  - intros Hall. destruct (difference columns possible) as [| y l] eqn:E;
      [reflexivity |].
    assert (H : In y (difference columns possible)) by (rewrite E; now left).
    apply difference_In in H. destruct H as [Hy Hn]. elim Hn. now apply Hall.
Qed.

Section QueryFacts.

Variable _validate_query : pyval -> result ListQuery.

Lemma validate_query_unfold (query : pyval) (table : Table) (q : ListQuery) :
  _validate_query query = inr q ->
  validate_query _validate_query query table
  = match difference (referenced q) (keys table) with
    | [] => inr q
    | not_valid => inl (JsonValidaitonError (Message (columns_msg not_valid)))
    end.
Proof.
  intros H. unfold validate_query, referenced. rewrite H. simpl.
  destruct (_sortField q); rewrite ?app_nil_r;
    match goal with
    | |- context [difference ?a ?b] => destruct (difference a b); reflexivity
    end.
Qed.

(** C9.  Once the request is parsed, [validate_query] looks at every column
    name the filter keys and the sort field refer to.  If all of them are
    columns of the table it returns the parsed query; otherwise it raises one
    error whose message, "Columns: " followed by names separated by ", " and
    by " do not present in resource", lists once each exactly the referenced
    names that the table does not have. *)
Theorem validate_query_unknown_columns (query : pyval) (table : Table) (q : ListQuery) :
  _validate_query query = inr q ->
  (Forall (fun x => In x (keys table)) (referenced q) ->
   validate_query _validate_query query table = inr q) /\
  (~ Forall (fun x => In x (keys table)) (referenced q) ->
   exists names,
     validate_query _validate_query query table
     = inl (JsonValidaitonError
              (Message ("Columns: " ++ String.concat ", " names
                        ++ " do not present in resource"))) /\
     names <> [] /\
     NoDup names /\
     forall x, In x names <-> In x (referenced q) /\ ~ In x (keys table)).
Proof.
  intros H. rewrite (validate_query_unfold _ table _ H). split.
  - intros Hall. apply difference_nil in Hall. now rewrite Hall.
  - intros Hnot. exists (difference (referenced q) (keys table)).
    assert (Hne : difference (referenced q) (keys table) <> []).
    { intros E. apply Hnot. now apply difference_nil. }
    split; [| split; [exact Hne | split]].
    + destruct (difference (referenced q) (keys table)) eqn:E; [now elim Hne |].
      reflexivity.
    + apply NoDup_nodup.
    + intros x. apply difference_In.
Qed.

End QueryFacts.

Lemma validate_query_unknown_columns_witness :
  validate_query (fun _ => inr (mkListQuery (Some "ghost") (Some [("age", VInt 5)]) []))
                 (VDict [("_sortField", VStr "ghost");
                         ("_filters", VDict [("age", VInt 5)])]) users
  = inl (JsonValidaitonError (Message "Columns: ghost do not present in resource")) /\
  exists names,
    validate_query (fun _ => inr (mkListQuery (Some "ghost") (Some [("age", VInt 5)]) []))
                   (VDict [("_sortField", VStr "ghost");
                           ("_filters", VDict [("age", VInt 5)])]) users
    = inl (JsonValidaitonError
             (Message ("Columns: " ++ String.concat ", " names
                       ++ " do not present in resource"))) /\
    names <> [] /\
    NoDup names /\
    forall x, In x names <->
              In x (referenced (mkListQuery (Some "ghost") (Some [("age", VInt 5)]) []))
              /\ ~ In x (keys users).
Proof.
  split; [reflexivity |].
  refine (proj2 (validate_query_unknown_columns
                   (fun _ => inr (mkListQuery (Some "ghost") (Some [("age", VInt 5)]) []))
                   (VDict [("_sortField", VStr "ghost");
                           ("_filters", VDict [("age", VInt 5)])]) users
                   (mkListQuery (Some "ghost") (Some [("age", VInt 5)]) []) eq_refl) _).
  intros Hall. apply Forall_forall with (x := "ghost") in Hall.
  - simpl in Hall. destruct Hall as [H | [H | [H | [H | []]]]]; discriminate H.
  - simpl. right. now left.
Defined.

Example validate_query_ghost :
  validate_query (fun _ => inr (mkListQuery (Some "ghost") (Some [("age", VInt 5)]) []))
                 (VDict [("_sortField", VStr "ghost");
                         ("_filters", VDict [("age", VInt 5)])]) users
  = inl (JsonValidaitonError (Message "Columns: ghost do not present in resource")).
Proof. reflexivity. Qed.

(** ** Resource registration *)

Lemma keys_minus_incl (fields : list (string * pyval)) (shown : list string) :
  forallb (fun f => str_in f (map fst fields)) (routes.keys_minus fields shown) = true.
Proof.
  apply forallb_forall. intros f Hf. apply str_in_In.
  unfold routes.keys_minus in Hf. apply filter_In in Hf. tauto.
Qed.

Lemma omit_fields_of_ok (m : routes.Model) (r : routes.Resource) :
  routes.omit_fields_of m r
  = inr (match routes.display r with
         | None => []
         | Some shown => routes.keys_minus (routes.fields m) shown
         end).
Proof.
  unfold routes.omit_fields_of. destruct (routes.display r) as [shown |];
    [| reflexivity].
  now rewrite keys_minus_incl.
Qed.

Lemma keys_minus_unknown (fields : list (string * pyval)) (shown : list string)
    (ghost : string) :
  ~ In ghost (map fst fields) ->
  routes.keys_minus fields (ghost :: shown) = routes.keys_minus fields shown.
Proof.
  intros H. unfold routes.keys_minus. apply filter_ext_in. intros f Hf.
  unfold str_in. simpl. destruct (String.eqb f ghost) eqn:E; [| reflexivity].
  apply String.eqb_eq in E. subst. contradiction.
Qed.

Lemma setup_loop_ok (rs : list routes.Resource) (admin : routes.Admin) :
  exists admin', routes.setup_loop admin rs = inr admin'.
Proof.
  revert admin. induction rs as [| r rest IH]; intros admin; simpl.
  - now exists admin.
  - unfold routes.setup_resource. rewrite omit_fields_of_ok. simpl. apply IH.
Qed.

(** C10.  [setup_resources] never raises the [ValueError] about a "display"
    list: the omitted fields are computed as a subset of the model's fields,
    so the test always passes, and a name in "display" that is no field of
    the model changes nothing. *)
Theorem setup_resources_display_never_rejected (admin : routes.Admin)
    (schema : list routes.Resource) :
  (exists admin', routes.setup_resources admin schema = inr admin') /\
  (forall m r, exists omit_fields,
      routes.omit_fields_of m r = inr omit_fields /\
      incl omit_fields (map fst (routes.fields m))) /\
  (forall r shown ghost,
      ~ In ghost (map fst (routes.fields (routes.model r))) ->
      routes.setup_resource admin (with_display r (Some (ghost :: shown)))
      = routes.setup_resource admin (with_display r (Some shown))).
Proof.
  repeat split.
  - apply setup_loop_ok.
  - intros m r. rewrite omit_fields_of_ok. eexists. split; [reflexivity |].
    destruct (routes.display r) as [shown |]; intros f Hf; [| destruct Hf].
    unfold routes.keys_minus in Hf. apply filter_In in Hf. tauto.
  - intros r shown ghost Hghost. unfold routes.setup_resource.
    rewrite !omit_fields_of_ok. simpl.
    now rewrite (keys_minus_unknown _ shown _ Hghost).
Qed.

(** ** Validator compiler *)

(** C2, as stated, fails for [skip_pk=False]: the primary key is then a
    required field like any other.  A payload without it is rejected, and a
    payload with it has the key checked and returned, not ignored. *)
Lemma validator_requires_primary_key :
  validate_payload plain users "id" false
    (VDict [("name", VStr "Bob"); ("age", VInt 30); ("nick", VNone)])
  = inr (inl (Errors [(Name "id", Failure "is required" None)])) /\
  validate_payload plain users "id" false
    (VDict [("id", VInt 7); ("name", VStr "Bob"); ("age", VInt 30); ("nick", VNone)])
  = inr (inr (VDict [("id", VInt 7); ("name", VStr "Bob"); ("age", VInt 30);
                     ("nick", VNone)])).
Proof. split; reflexivity. Qed.

Lemma table_trafaret_skips (cols : list Column) (primary_key : string)
    (ks : list (Key * trafaret)) :
  table_trafaret (map (fun col => (name col, col)) cols) primary_key true = inr ks ->
  ~ In primary_key (map (fun kt => key_name (fst kt)) ks).
Proof.
  revert ks. induction cols as [| col rest IH]; intros ks H; simpl in H.
  - injection H as <-. intros [].
  - destruct (String.eqb (name col) primary_key) eqn:E; simpl in H.
    + now apply IH.
    + inv_bind H field Hfield. inv_bind H ks' Hks'. injection H as <-.
      simpl. intros [Hk | Hk].
      * apply String.eqb_neq in E. apply E.
        unfold build_key in Hk. destruct (server_default col); exact Hk.
      * exact (IH _ Hks' Hk).
Qed.

Lemma table_trafaret_keeps (cols : list Column) (primary_key : string)
    (ks : list (Key * trafaret)) (column : Column) :
  table_trafaret (map (fun col => (name col, col)) cols) primary_key false = inr ks ->
  In column cols ->
  exists field, In (mkKey (name column) (server_default column), field) ks.
Proof.
  revert ks. induction cols as [| col rest IH]; intros ks H Hin; simpl in H.
  - destruct Hin.
  - inv_bind H field Hfield. inv_bind H ks' Hks'. injection H as <-.
    destruct Hin as [-> | Hin].
    + exists field. left. unfold build_key. now destruct (server_default column).
    + destruct (IH _ Hks' Hin) as [f Hf]. exists f. now right.
Qed.

Lemma get_without (before after : list (string * pyval)) (k key : string) (v : pyval) :
  key <> k ->
  get (before ++ (k, v) :: after) key = get (before ++ after) key.
Proof.
  intros Hne. induction before as [| [k' v'] rest IH]; simpl.
  - apply String.eqb_neq in Hne. now rewrite Hne.
  - now rewrite IH.
Qed.

Section DictFacts.

Variable cv : Conversions.

Lemma check_keys_without (ks : list (Key * trafaret))
    (before after : list (string * pyval)) (k : string) (v : pyval) :
  ~ In k (map (fun kt => key_name (fst kt)) ks) ->
  check_keys cv ks (before ++ (k, v) :: after) = check_keys cv ks (before ++ after).
Proof.
  induction ks as [| [key t] rest IH]; intros Hk; simpl; [reflexivity |].
  simpl in Hk. rewrite IH by tauto.
  unfold call_key. rewrite get_without by (intros E; apply Hk; left; exact E).
  reflexivity.
Qed.

Lemma check_extras_ignored (touched : list string)
    (before after : list (string * pyval)) (k : string) (v : pyval) :
  check_extras touched [k] (before ++ (k, v) :: after)
  = check_extras touched [k] (before ++ after).
Proof.
  induction before as [| [k' v'] rest IH]; cbn -[str_in].
  - destruct (str_in k touched); [reflexivity |].
    assert (Hk : str_in k [k] = true) by (apply str_in_In; now left).
    now rewrite Hk.
  - now rewrite IH.
Qed.

Lemma check_keys_required (ks : list (Key * trafaret)) (data : list (string * pyval))
    (k : string) (t : trafaret) :
  In (mkKey k None, t) ks ->
  get data k = None ->
  In (Name k, Failure "is required" None) (fst (check_keys cv ks data)).
Proof.
  intros Hin Hget. induction ks as [| [key t'] rest IH]; [destruct Hin |].
  simpl. destruct (check_keys cv rest data) as [errors collect] eqn:Hrest.
  destruct Hin as [Heq | Hin].
  - injection Heq as -> ->. unfold call_key. simpl. rewrite Hget. simpl. now left.
  - specialize (IH Hin). simpl in IH.
    destruct (call_key cv key t' data); simpl; auto.
Qed.

(** C2.  Compiled with [skip_pk=True], the table validator has no field for
    the primary key and lets the key through as an extra: a payload checks
    to the same result with the key and without it.  Compiled with
    [skip_pk=False], the primary key is a field of the validator; when its
    column has no server default, a payload without the key is rejected
    with "is required" for it. *)
Theorem validator_from_table_primary_key (table : Table) (primary_key : string) :
  (forall d,
      validator_from_table table primary_key true = inr d ->
      ~ In primary_key (field_names d) /\
      forall before after v,
        check_dict cv d (VDict (before ++ (primary_key, v) :: after))
        = check_dict cv d (VDict (before ++ after))) /\
  (forall d column,
      validator_from_table table primary_key false = inr d ->
      In column (c table) ->
      name column = primary_key ->
      In primary_key (field_names d) /\
      (server_default column = None ->
       forall data, get data primary_key = None ->
         exists errs,
           check_dict cv d (VDict data) = inl (Errors errs) /\
           In (Name primary_key, Failure "is required" None) errs)).
Proof.
  unfold validator_from_table, items, field_names. split.
  - intros d H. inv_bind H ks Hks. injection H as <-. simpl.
    pose proof (table_trafaret_skips _ _ _ Hks) as Hskip.
    split; [exact Hskip |].
    intros before after v. unfold check_dict. simpl.
    rewrite (check_keys_without _ before after _ v Hskip).
    now rewrite check_extras_ignored.
  - intros d column H Hin Hname. inv_bind H ks Hks. injection H as <-. simpl.
    destruct (table_trafaret_keeps _ _ _ column Hks Hin) as [field Hfield].
    rewrite Hname in Hfield. split.
    + apply in_map_iff. exists (mkKey primary_key (server_default column), field).
      split; [reflexivity | exact Hfield].
    + intros Hdefault data Hget. rewrite Hdefault in Hfield.
      pose proof (check_keys_required ks data primary_key field Hfield Hget) as Hreq.
      unfold check_dict. simpl.
      destruct (check_keys cv ks data) as [errors collect]. simpl in Hreq.
      set (extras := check_extras _ _ data).
      assert (Hall : In (Name primary_key, Failure "is required" None)
                        (errors ++ extras)%list) by (apply in_or_app; now left).
      destruct (errors ++ extras)%list as [| e errs] eqn:E; [destruct Hall |].
      exists (e :: errs). split; [reflexivity | exact Hall].
Qed.

End DictFacts.

Lemma validator_from_table_primary_key_witness :
  let creation := mkDict [(mkKey "name" None, TString (Some 30));
                          (mkKey "age" None, TInt);
                          (mkKey "nick" None, TOr TInt TNull)] ["id"] in
  (~ In "id" (field_names creation) /\
   check_dict plain creation
     (VDict ([("name", VStr "Bob")] ++ ("id", VInt 7) :: [("age", VInt 30); ("nick", VNone)]))
   = check_dict plain creation
       (VDict ([("name", VStr "Bob")] ++ [("age", VInt 30); ("nick", VNone)]))) /\
  (exists errs,
      check_dict plain
        (mkDict [(mkKey "id" None, TInt); (mkKey "name" None, TString (Some 30));
                 (mkKey "age" None, TInt); (mkKey "nick" None, TOr TInt TNull)] ["id"])
        (VDict [("name", VStr "Bob")]) = inl (Errors errs) /\
      In (Name "id", Failure "is required" None) errs).
Proof.
  intros creation.
  destruct (validator_from_table_primary_key plain users "id") as [Hskip Hfull].
  split.
  - destruct (Hskip creation eq_refl) as [Hno Hsame].
    split; [exact Hno | apply Hsame].
  - exact (proj2 (Hfull _ id_column eq_refl (or_introl eq_refl) eq_refl)
                 eq_refl [("name", VStr "Bob")] eq_refl).
Defined.

(** * Further properties of the code *)

(** ** Type dispatch *)

(** X1.  The validator [build_trafaret] builds, by column type.  Text is
    tested before String and gets a string validator without a length
    bound; an enum gets its members; date and datetime share the RFC 3339
    validator; an array wraps the validator of its item type. *)
Theorem build_trafaret_table (t : sa_type) :
  build_trafaret t =
  match t with
  | Enum members => inr (TEnum members)
  | Text => inr (TString None)
  | String_ n => inr (TString n)
  | Integer => inr TInt
  | Float => inr TFloat
  | DateTime | Date => inr TDateTime
  | Boolean => inr TStrBool
  | JSON => inr (TOr TAnyDict (TList TAnyDict))
  | ARRAY item_type => map_result TList (build_trafaret item_type)
  | LargeBinary => inl (NotImplementedError (not_implemented_msg t))
  end.
Proof.
  destruct t; reflexivity.
Qed.

Lemma build_trafaret_succeeds (t : sa_type) :
  succeeds (build_trafaret t) = supported t.
Proof.
  induction t; try reflexivity.
  simpl. destruct (build_trafaret t); simpl in *; assumption.
Qed.

Lemma build_trafaret_error (t : sa_type) (e : exn) :
  build_trafaret t = inl e ->
  e = NotImplementedError (not_implemented_msg (innermost t)).
Proof.
  induction t; simpl; intros H; try discriminate.
  - destruct (build_trafaret t); simpl in H; [| discriminate].
    injection H as <-. now apply IHt.
  - now injection H as <-.
Qed.

(** X2.  [build_trafaret] returns a validator exactly for the supported
    types; for any other type it raises [NotImplementedError] naming the
    innermost item type, the one no case matches. *)
Theorem build_trafaret_supported (t : sa_type) :
  if supported t
  then exists validator, build_trafaret t = inr validator
  else build_trafaret t
       = inl (NotImplementedError (not_implemented_msg (innermost t))).
Proof.
  pose proof (build_trafaret_succeeds t) as Hs.
  destruct (supported t); destruct (build_trafaret t) as [e | v] eqn:E;
    simpl in Hs; try discriminate.
  - now exists v.
  - now rewrite (build_trafaret_error t e E).
Qed.

(** X3.  Every type that gets a validator also gets a UI kind: if
    [build_trafaret] succeeds, so does [build_type_mapper]. *)
Theorem build_type_mapper_covers_validators (t : sa_type) (validator : trafaret) :
  build_trafaret t = inr validator ->
  exists fe_type, build_type_mapper t = inr fe_type.
Proof.
  destruct t; simpl; intros H; try discriminate; eexists; reflexivity.
Qed.

Lemma build_type_mapper_covers_validators_witness :
  exists fe_type, build_type_mapper (ARRAY Integer) = inr fe_type.
Proof.
  exact (build_type_mapper_covers_validators (ARRAY Integer) (TList TInt) eq_refl).
Defined.

(** ** Operators *)

Lemma op_succeeds (operation : string) (column : Column) :
  succeeds (op operation column) = str_in operation known_operations.
Proof.
  unfold op, str_in, known_operations. simpl.
  repeat match goal with
         | |- context [String.eqb operation ?s] => destruct (String.eqb operation s)
         end; reflexivity.
Qed.

(** X4.  [op] has a comparator exactly for in, like, eq, ne, le, lt, ge and
    gt; for any other name it raises [ValueError] naming the operation. *)
Theorem op_known_operations (operation : string) (column : Column) :
  if str_in operation known_operations
  then exists comparator, op operation column = inr comparator
  else op operation column
       = inl (ValueError ("Operation " ++ operation ++ " not supported")).
Proof.
  unfold op, str_in, known_operations. simpl.
  repeat match goal with
         | |- context [String.eqb operation ?s] => destruct (String.eqb operation s)
         end; simpl; try (eexists; reflexivity); reflexivity.
Qed.

Lemma check_comparator_allowed (column : Column) (op_name : string) :
  check_comparator column op_name = inr tt ->
  str_in op_name known_operations = true /\
  (op_name = "in" -> type column = Integer) /\
  (op_name = "like" -> exists t, build_trafaret (type column) = inr (TString t)) /\
  exists validator, build_trafaret (type column) = inr validator.
Proof.
  unfold check_comparator.
  destruct (type column); cbn -[str_in]; try discriminate;
    match goal with
    | |- context [negb (str_in op_name ?l)] =>
        destruct (str_in op_name l) eqn:E; simpl; try discriminate
    end;
    intros _; apply str_in_In in E; simpl in E;
    repeat (destruct E as [E | E]; [subst op_name |]); try destruct E;
    (split; [reflexivity |]);
    (split; [intros H; first [reflexivity | discriminate H] |]);
    (split; [intros H; first [eexists; reflexivity | discriminate H] |]);
    eexists; reflexivity.
Qed.

(** X5.  An operator that [check_comparator] lets through is one [op] has a
    comparator for: after the check, [op] does not raise. *)
Theorem checked_operator_has_comparator (column : Column) (op_name : string) :
  check_comparator column op_name = inr tt ->
  exists comparator, op op_name column = inr comparator.
Proof.
  intros H. destruct (check_comparator_allowed column op_name H) as [Hk _].
  pose proof (op_succeeds op_name column) as Hs. rewrite Hk in Hs.
  destruct (op op_name column) as [e | cmp]; [discriminate | now exists cmp].
Qed.

Lemma checked_operator_has_comparator_witness :
  exists comparator, op "in" age = inr comparator.
Proof.
  exact (checked_operator_has_comparator age "in" eq_refl).
Defined.

(** ** Column lookup *)

Lemma find_column_present (cols : list Column) (column_name : string) :
  In column_name (map name cols) -> exists col, find_column cols column_name = Some col.
Proof.
  induction cols as [| x rest IH]; simpl; intros H; [destruct H |].
  destruct (String.eqb column_name (name x)) eqn:E; [now exists x |].
  apply IH. destruct H as [H | H]; [| exact H].
  apply String.eqb_neq in E. congruence.
Qed.

(** X6.  [to_column] returns a column of the table carrying the requested
    name, or raises [KeyError] with that name, which happens exactly when
    the table has no such column. *)
Theorem to_column_lookup (column_name : string) (table : Table) :
  match to_column column_name table with
  | inr col => name col = column_name /\ In col (c table)
  | inl e => e = KeyError column_name /\ ~ In column_name (keys table)
  end.
Proof.
  unfold to_column.
  destruct (find_column (c table) column_name) as [col |] eqn:E; simpl.
  - now apply find_column_some.
  - split; [reflexivity |]. intros Hin.
    destruct (find_column_present _ _ Hin) as [col Hcol]. unfold keys in *. congruence.
Qed.

(** X7.  In a table whose column names are distinct, looking a column up by
    its own name gives that column back. *)
Theorem to_column_own_name (table : Table) (col : Column) :
  NoDup (keys table) ->
  In col (c table) ->
  to_column (name col) table = inr col.
Proof.
  unfold to_column, keys. induction (c table) as [| x rest IH]; simpl;
    intros Hnd Hin; [destruct Hin |].
  inversion Hnd as [| ? ? Hx Hrest]; subst.
  destruct Hin as [-> | Hin].
  - now rewrite String.eqb_refl.
  - destruct (String.eqb (name col) (name x)) eqn:E.
    + apply String.eqb_eq in E. exfalso. apply Hx. rewrite <- E. now apply in_map.
    + now apply IH.
Qed.

Lemma to_column_own_name_witness : to_column (name nick) users = inr nick.
Proof.
  apply (to_column_own_name users nick).
  - repeat constructor; simpl; intuition discriminate.
  - simpl. auto.
Defined.

(** ** Filter values *)

(** X8.  On a list value [check_value] validates element by element: it
    returns a list exactly when every element passes the column's base
    validator, and the result lists the validated elements in the same
    order, one per input element. *)
Theorem check_value_list (cv : Conversions) (column : Column) (t : trafaret)
    (values : list pyval) (checked : pyval) :
  build_trafaret (type column) = inr t ->
  (check_value cv column (VList values) = inr checked <->
   exists checked_values,
     checked = VList checked_values /\
     Forall2 (fun v v' => check_and_return cv t v = inr v') values checked_values).
Proof.
  intros Ht. unfold check_value. rewrite Ht. simpl.
  destruct (check_each cv t values) as [e | vs] eqn:E; simpl.
  - split; [discriminate |]. intros [vs [_ H]].
    apply check_each_Forall2 in H. congruence.
  - split.
    + intros H. injection H as <-. exists vs. split; [reflexivity |].
      now apply check_each_Forall2.
    + intros [vs' [-> H]]. apply check_each_Forall2 in H.
      rewrite E in H. now injection H as <-.
Qed.

Lemma check_value_list_witness :
  check_value plain age (VList [VInt 1; VInt 2])
  = inr (VList [VInt 1; VInt 2]) <->
  exists checked_values,
    VList [VInt 1; VInt 2] = VList checked_values /\
    Forall2 (fun v v' => check_and_return plain TInt v = inr v')
            [VInt 1; VInt 2] checked_values.
Proof.
  exact (check_value_list plain age TInt [VInt 1; VInt 2]
           (VList [VInt 1; VInt 2]) eq_refl).
Defined.

(** ** Compilation as a whole *)

Lemma comparator_succeeds (op_name : string) (column col : Column)
    (cmp : comparator_t) (v : pyval) :
  op op_name column = inr cmp -> succeeds (cmp col v) = operand_ok op_name v.
Proof.
  unfold op, operand_ok, binary, ret, raise.
  repeat match goal with
         | |- context [String.eqb op_name ?s] =>
             let E := fresh "E" in
             destruct (String.eqb op_name s) eqn:E;
             [apply String.eqb_eq in E; subst op_name |]
         end;
    intros H; try discriminate; injection H as <-; simpl;
    try reflexivity; destruct v; reflexivity.
Qed.

Lemma comparator_error (op_name : string) (column col : Column)
    (cmp : comparator_t) (v : pyval) (e : exn) :
  op op_name column = inr cmp -> cmp col v = inl e ->
  forall table, filter_error table [] e.
Proof.
  unfold op, binary, ret, raise.
  repeat match goal with
         | |- context [String.eqb op_name ?s] => destruct (String.eqb op_name s)
         end;
    intros H; try discriminate; injection H as <-;
    try discriminate; destruct v; intros H; try discriminate;
    injection H as <-; intros table; exact I.
Qed.

Lemma filter_error_weaken (table : Table) (filter : list (string * pyval)) (e : exn) :
  filter_error table [] e -> filter_error table filter e.
Proof. destruct e; simpl; tauto. Qed.

Section CompilationFacts.

Variable cv : Conversions.

Lemma check_value_error (column : Column) (validator : trafaret) (value : pyval)
    (e : exn) :
  build_trafaret (type column) = inr validator ->
  check_value cv column value = inl e ->
  forall table, filter_error table [] e.
Proof.
  intros Ht. unfold check_value. rewrite Ht. simpl.
  assert (Hany : forall exc table, filter_error table [] (validation_error exc)).
  { intros [msg v | fields] table; simpl; [exact I |].
    destruct (forallb _ fields); exact I. }
  destruct value; simpl;
    match goal with
    | |- context [check_each cv validator ?l] => destruct (check_each cv validator l)
    | |- context [check_and_return cv validator ?v] =>
        destruct (check_and_return cv validator v)
    end; intros H; try discriminate; injection H as <-; apply Hany.
Qed.

Lemma apply_operations_shift (column : Column) (ops : list (string * pyval))
    (q : Select) :
  apply_operations cv column ops q
  = map_result (and_also q) (apply_operations cv column ops (mkSelect (froms q) [])).
Proof.
  revert q. induction ops as [| [op_name value] rest IH]; intros q; simpl.
  - unfold ret, and_also. simpl. rewrite app_nil_r. now destruct q.
  - destruct (check_comparator column op_name) as [e | u]; simpl; [reflexivity |].
    destruct (check_value cv column value) as [e | checked]; simpl; [reflexivity |].
    destruct (op op_name column) as [e | cmp]; simpl; [reflexivity |].
    destruct (cmp column checked) as [e | f]; simpl; [reflexivity |].
    rewrite (IH (where_ q f)), (IH (where_ (mkSelect (froms q) []) f)). simpl.
    destruct (apply_operations cv column rest (mkSelect (froms q) [])) as [e | r];
      simpl; [reflexivity |].
    unfold and_also. simpl. now rewrite <- app_assoc.
Qed.

Lemma apply_operations_froms (column : Column) (ops : list (string * pyval))
    (q q' : Select) :
  apply_operations cv column ops q = inr q' -> froms q' = froms q.
Proof.
  rewrite apply_operations_shift.
  destruct (apply_operations cv column ops (mkSelect (froms q) [])); simpl;
    intros H; [discriminate |]. now injection H as <-.
Qed.

Lemma filter_loop_shift (table : Table) (filter : list (string * pyval)) (q : Select) :
  filter_loop cv table filter q
  = map_result (and_also q) (filter_loop cv table filter (mkSelect (froms q) [])).
Proof.
  revert q. induction filter as [| [cn operation] rest IH]; intros q; simpl.
  - unfold ret, and_also. simpl. rewrite app_nil_r. now destruct q.
  - destruct (to_column cn table) as [e | column]; simpl; [reflexivity |].
    rewrite (apply_operations_shift column _ q).
    destruct (apply_operations cv column (operations operation) (mkSelect (froms q) []))
      as [e | q1] eqn:E; simpl; [reflexivity |].
    apply apply_operations_froms in E. simpl in E.
    rewrite (IH (and_also q q1)), (IH q1). simpl. rewrite E.
    destruct (filter_loop cv table rest (mkSelect (froms q) [])) as [e | r];
      simpl; [reflexivity |].
    unfold and_also. simpl. now rewrite <- app_assoc.
Qed.

(** X9.  Filters compose: when two filter requests compile on a table, so
    does the one that lists the entries of the first and then those of the
    second, and its criteria are those of the first query followed by those
    of the second. *)
Theorem create_filter_app (table : Table) (first second : list (string * pyval))
    (q1 q2 : Select) :
  create_filter cv table first = inr q1 ->
  create_filter cv table second = inr q2 ->
  create_filter cv table (first ++ second)
  = inr (mkSelect table (where_criteria q1 ++ where_criteria q2)).
Proof.
  unfold create_filter. intros H1 H2. rewrite filter_loop_app, H1. simpl.
  rewrite filter_loop_shift.
  assert (Hfrom : froms q1 = table).
  { rewrite filter_loop_shift in H1. simpl in H1.
    destruct (filter_loop cv table first (mkSelect table [])); simpl in H1;
      [discriminate |]. now injection H1 as <-. }
  rewrite Hfrom. unfold select in H2. rewrite H2. simpl.
  unfold and_also. now rewrite Hfrom.
Qed.

Lemma apply_operations_succeeds (column : Column) (ops : list (string * pyval))
    (q : Select) :
  succeeds (apply_operations cv column ops q) = forallb (op_compiles cv column) ops.
Proof.
  revert q. induction ops as [| [op_name value] rest IH]; intros q; simpl;
    [reflexivity |].
  unfold op_compiles at 1. simpl.
  destruct (check_comparator column op_name) as [e | []] eqn:Hc; simpl; [reflexivity |].
  destruct (check_value cv column value) as [e | checked]; simpl; [reflexivity |].
  destruct (check_comparator_allowed column op_name Hc) as [Hk _].
  pose proof (op_succeeds op_name column) as Hs. rewrite Hk in Hs.
  destruct (op op_name column) as [e | cmp] eqn:Hop; [discriminate |]. simpl.
  rewrite <- (comparator_succeeds op_name column column cmp checked Hop).
  destruct (cmp column checked) as [e | f]; simpl; [reflexivity | apply IH].
Qed.

Lemma filter_loop_succeeds (table : Table) (filter : list (string * pyval)) (q : Select) :
  succeeds (filter_loop cv table filter q) = forallb (item_compiles cv table) filter.
Proof.
  revert q. induction filter as [| [cn operation] rest IH]; intros q; simpl;
    [reflexivity |].
  unfold item_compiles at 1, to_column. simpl.
  destruct (find_column (c table) cn) as [column |]; simpl; [| reflexivity].
  rewrite <- (apply_operations_succeeds column (operations operation) q).
  destruct (apply_operations cv column (operations operation) q) as [e | q'];
    simpl; [reflexivity | apply IH].
Qed.


Lemma apply_operations_error (column : Column) (ops : list (string * pyval))
    (q : Select) (e : exn) :
  apply_operations cv column ops q = inl e -> forall table, filter_error table [] e.
Proof.
  revert q. induction ops as [| [op_name value] rest IH]; intros q; simpl;
    [discriminate |].
  destruct (check_comparator column op_name) as [e' | []] eqn:Hc; simpl.
  - intros H table. injection H as <-. revert Hc. unfold check_comparator.
    destruct (class_lookup (type_of (type column)) comparator_map) as [allowed |].
    + destruct (negb (str_in op_name allowed)); intros H; [| discriminate].
      now injection H as <-.
    + intros H. now injection H as <-.
  - destruct (check_comparator_allowed column op_name Hc) as [Hk [_ [_ [t Ht]]]].
    destruct (check_value cv column value) as [e' | checked] eqn:Hv; simpl.
    + intros H table. injection H as <-.
      exact (check_value_error column t value e' Ht Hv table).
    + pose proof (op_succeeds op_name column) as Hs. rewrite Hk in Hs.
      destruct (op op_name column) as [e' | cmp] eqn:Hop; [discriminate |]. simpl.
      destruct (cmp column checked) as [e' | f] eqn:Hf; simpl.
      * intros H. injection H as <-.
        exact (comparator_error op_name column column cmp checked e' Hop Hf).
      * apply IH.
Qed.

Lemma filter_loop_error (table : Table) (filter : list (string * pyval)) (q : Select)
    (e : exn) :
  filter_loop cv table filter q = inl e -> filter_error table filter e.
Proof.
  revert q. induction filter as [| [cn operation] rest IH]; intros q; simpl;
    [discriminate |].
  pose proof (to_column_lookup cn table) as Hlook.
  destruct (to_column cn table) as [e' | column]; simpl.
  - intros H. injection H as <-. destruct Hlook as [-> Habsent]. simpl. auto.
  - destruct (apply_operations cv column (operations operation) q) as [e' | q'] eqn:Ha;
      simpl.
    + intros H. injection H as <-. apply filter_error_weaken.
      exact (apply_operations_error column _ q e' Ha table).
    + intros H. specialize (IH q' H). destruct e; simpl in *; tauto.
Qed.

End CompilationFacts.

Lemma create_filter_app_witness :
  create_filter plain users
    ([("age", VDict [("gt", VInt 18)])] ++ [("name", VStr "Bob"); ("age", VDict [])])
  = inr (mkSelect users [BinaryExpression age op_gt (VInt 18);
                         BinaryExpression name_column op_eq (VStr "Bob")]).
Proof.
  exact (create_filter_app plain users [("age", VDict [("gt", VInt 18)])]
           [("name", VStr "Bob"); ("age", VDict [])] _ _ eq_refl eq_refl).
Defined.

(** X12.  The query validator shields the filter compiler: when
    [validate_query] accepts a request, compiling its filter map never
    raises [KeyError]. *)
Theorem validated_filter_has_columns (_validate_query : pyval -> result ListQuery)
    (cv : Conversions) (query : pyval) (table : Table) (q : ListQuery)
    (filters : list (string * pyval)) (e : exn) :
  validate_query _validate_query query table = inr q ->
  _filters q = Some filters ->
  create_filter cv table filters = inl e ->
  is_key_error e = false.
Proof.
  intros Hvalid Hfilters Hfail.
  destruct e as [k | | | | | |]; try reflexivity. exfalso.
  apply (filter_loop_error cv) in Hfail. simpl in Hfail. destruct Hfail as [Hin Hout].
  apply Hout. clear Hout.
  destruct (_validate_query query) as [e | q0] eqn:Hparse.
  - unfold validate_query in Hvalid. rewrite Hparse in Hvalid. discriminate Hvalid.
  - rewrite (validate_query_unfold _ query table q0 Hparse) in Hvalid.
    destruct (difference (referenced q0) (keys table)) eqn:Hd; [| discriminate].
    injection Hvalid as ->. apply difference_nil in Hd.
    rewrite Forall_forall in Hd. apply Hd.
    unfold referenced. rewrite Hfilters. apply in_or_app. now left.
Qed.

Lemma validated_filter_has_columns_witness :
  is_key_error (Exception "Filtering for column type INTEGER not supported") = false.
Proof.
  exact (validated_filter_has_columns
           (fun _ => inr (mkListQuery (Some "name")
                                      (Some [("age", VDict [("like", VStr "x")])]) []))
           plain (VDict []) users
           (mkListQuery (Some "name") (Some [("age", VDict [("like", VStr "x")])]) [])
           [("age", VDict [("like", VStr "x")])]
           (Exception "Filtering for column type INTEGER not supported")
           eq_refl eq_refl eq_refl).
Defined.

(** X13.  [like] is a prefix match on the text as given: on a string or
    text column, for a non-empty value within the declared length, the
    filter {c: {"like": s}} compiles to the single predicate c LIKE s%,
    with s copied verbatim (no pattern character of s is escaped). *)
Theorem create_filter_like (cv : Conversions) (table : Table) (column : Column)
    (s : string) :
  find_column (c table) (name column) = Some column ->
  (type column = Text \/
   exists n, type column = String_ n /\
             forall m, n = Some m -> (String.length s <= m)%nat) ->
  s <> EmptyString ->
  create_filter cv table [(name column, VDict [("like", VStr s)])]
  = inr (mkSelect table [BinaryExpression column op_like (VStr (s ++ "%"))]).
Proof.
  intros Hfind Htype Hs. unfold create_filter. simpl. unfold to_column.
  rewrite Hfind. simpl.
  assert (Hlen : Nat.eqb (String.length s) 0 = false).
  { destruct s; [contradiction | reflexivity]. }
  unfold check_comparator, check_value.
  destruct Htype as [Ht | [n [Ht Hn]]]; rewrite Ht; simpl; rewrite Hlen.
  - reflexivity.
  - destruct n as [m |]; [| reflexivity].
    assert (Hm : (m <? String.length s)%nat = false).
    { apply Nat.ltb_ge. now apply Hn. }
    now rewrite Hm.
Qed.

Lemma create_filter_like_witness :
  create_filter plain users [(name name_column, VDict [("like", VStr "Bo%_")])]
  = inr (mkSelect users [BinaryExpression name_column op_like (VStr ("Bo%_" ++ "%"))]).
Proof.
  apply (create_filter_like plain users name_column "Bo%_").
  - reflexivity.
  - right. exists (Some 30). split; [reflexivity |].
    intros m H. injection H as <-. simpl. lia.
  - discriminate.
Defined.

(** X14.  [in] takes a list: on an integer column, when every element
    validates, the filter {c: {"in": [v1, ...]}} compiles to the single
    predicate c IN (the validated elements, in order). *)
Theorem create_filter_in (cv : Conversions) (table : Table) (column : Column)
    (values checked : list pyval) :
  find_column (c table) (name column) = Some column ->
  type column = Integer ->
  check_each cv TInt values = inr checked ->
  create_filter cv table [(name column, VDict [("in", VList values)])]
  = inr (mkSelect table [BinaryExpression column op_in (VList checked)]).
Proof.
  intros Hfind Htype Hvalues. unfold create_filter. simpl. unfold to_column.
  rewrite Hfind. simpl. unfold check_comparator, check_value. rewrite Htype. simpl.
  now rewrite Hvalues.
Qed.

Lemma create_filter_in_witness :
  create_filter plain users [(name age, VDict [("in", VList [VInt 18; VInt 21])])]
  = inr (mkSelect users [BinaryExpression age op_in (VList [VInt 18; VInt 21])]).
Proof.
  exact (create_filter_in plain users age [VInt 18; VInt 21] [VInt 18; VInt 21]
           eq_refl eq_refl eq_refl).
Defined.

(** X15.  A comparator is applied only to what it can take: [like] with a
    list of strings and [in] with a single value pass the operator check
    and validation, and still do not compile. *)
Theorem create_filter_operand_shape (cv : Conversions) (table : Table)
    (column : Column) (op_name : string) (value checked : pyval) :
  find_column (c table) (name column) = Some column ->
  check_value cv column value = inr checked ->
  operand_ok op_name checked = false ->
  succeeds (create_filter cv table [(name column, VDict [(op_name, value)])]) = false.
Proof.
  intros Hfind Hvalue Hshape. unfold create_filter.
  rewrite (filter_loop_succeeds cv). simpl.
  unfold item_compiles. simpl. rewrite Hfind. simpl.
  unfold op_compiles. simpl. rewrite Hvalue, Hshape.
  now rewrite andb_false_r.
Qed.

Lemma create_filter_operand_shape_witness :
  succeeds (create_filter plain users [(name age, VDict [("in", VInt 18)])]) = false.
Proof.
  exact (create_filter_operand_shape plain users age "in" (VInt 18) (VInt 18)
           eq_refl eq_refl eq_refl).
Defined.

(** ** The compiled table validator *)

Lemma build_key_eq (name_ : string) (default : option pyval) :
  build_key name_ default = mkKey name_ default.
Proof. now destruct default. Qed.

Lemma table_trafaret_fields (cols : list Column) (primary_key : string) (skip_pk : bool)
    (ks : list (Key * trafaret)) :
  table_trafaret (map (fun col => (name col, col)) cols) primary_key skip_pk = inr ks ->
  Forall2 field_of
    (if skip_pk
     then filter (fun col => negb (String.eqb (name col) primary_key)) cols
     else cols) ks.
Proof.
  revert ks. induction cols as [| col rest IH]; intros ks H; simpl in H.
  - injection H as <-. destruct skip_pk; constructor.
  - destruct (skip_pk && String.eqb (name col) primary_key) eqn:E.
    + apply andb_true_iff in E. destruct E as [-> E]. simpl. rewrite E. simpl.
      exact (IH _ H).
    + inv_bind H field Hfield. inv_bind H ks' Hks'. injection H as <-.
      specialize (IH _ Hks').
      assert (Hhead : field_of col (build_key (name col) (server_default col), field)).
      { split; [apply build_key_eq | exact Hfield]. }
      destruct skip_pk; simpl in *.
      * rewrite E. simpl. now constructor.
      * now constructor.
Qed.

Lemma table_trafaret_succeeds (cols : list Column) (primary_key : string)
    (skip_pk : bool) :
  succeeds (table_trafaret (map (fun col => (name col, col)) cols) primary_key skip_pk)
  = forallb (fun col => supported (type col))
      (if skip_pk
       then filter (fun col => negb (String.eqb (name col) primary_key)) cols
       else cols).
Proof.
  destruct skip_pk; induction cols as [| col rest IH]; simpl; try reflexivity;
    try (destruct (String.eqb (name col) primary_key); simpl; [exact IH |]);
    rewrite <- IH; unfold build_field;
    rewrite <- (build_trafaret_succeeds (type col));
    destruct (build_trafaret (type col)); simpl; try reflexivity;
    destruct (nullable col); simpl;
    match goal with
    | |- context [table_trafaret ?l ?k ?b] => destruct (table_trafaret l k b)
    end; reflexivity.
Qed.

Lemma Forall2_In_left {A B : Type} (R : A -> B -> Prop) (l : list A) (l' : list B)
    (x : A) :
  Forall2 R l l' -> In x l -> exists y, In y l' /\ R x y.
Proof.
  induction 1 as [| a b l l' Hab Hrest IH]; intros Hin; [destruct Hin |].
  destruct Hin as [-> | Hin].
  - exists b. split; [now left | exact Hab].
  - destruct (IH Hin) as [y [Hy HR]]. exists y. split; [now right | exact HR].
Qed.

Lemma field_names_kept (cols : list Column) (ks : list (Key * trafaret)) :
  Forall2 field_of cols ks ->
  map (fun kt => key_name (fst kt)) ks = map name cols.
Proof.
  induction 1 as [| col kt cols ks [Hk _] Hrest IH]; simpl; [reflexivity |].
  now rewrite IH, Hk.
Qed.

(** X16.  The compiled validator has one field per kept column, in table
    order (every column, or every column but the primary key when
    [skip_pk] is set): the field is keyed by the column's name, carries the
    column's server default as its default, and validates with the
    column's [build_field] validator.  The primary key is always on the
    list of extras to let through. *)
Theorem validator_from_table_fields (table : Table) (primary_key : string)
    (skip_pk : bool) (d : Dict) :
  validator_from_table table primary_key skip_pk = inr d ->
  ignore d = [primary_key] /\
  field_names d = map name (kept_columns table primary_key skip_pk) /\
  Forall2 field_of (kept_columns table primary_key skip_pk) (dict_keys d).
Proof.
  unfold validator_from_table, items, kept_columns, field_names. intros H.
  inv_bind H ks Hks. injection H as <-. simpl.
  pose proof (table_trafaret_fields _ _ _ _ Hks) as Hall.
  repeat split; [now apply field_names_kept | exact Hall].
Qed.

Lemma validator_from_table_fields_witness :
  ignore (mkDict [(mkKey "name" None, TString (Some 30)); (mkKey "age" None, TInt);
                  (mkKey "nick" None, TOr TInt TNull)] ["id"]) = ["id"] /\
  field_names (mkDict [(mkKey "name" None, TString (Some 30)); (mkKey "age" None, TInt);
                       (mkKey "nick" None, TOr TInt TNull)] ["id"])
  = map name (kept_columns users "id" true) /\
  Forall2 field_of (kept_columns users "id" true)
    (dict_keys (mkDict [(mkKey "name" None, TString (Some 30)); (mkKey "age" None, TInt);
                        (mkKey "nick" None, TOr TInt TNull)] ["id"])).
Proof.
  exact (validator_from_table_fields users "id" true _ eq_refl).
Defined.

(** X17.  [validator_from_table] returns a validator exactly when every
    kept column has a supported type; a primary key of unsupported type is
    no obstacle when [skip_pk] is set. *)
Theorem validator_from_table_succeeds (table : Table) (primary_key : string)
    (skip_pk : bool) :
  succeeds (validator_from_table table primary_key skip_pk)
  = forallb (fun col => supported (type col)) (kept_columns table primary_key skip_pk).
Proof.
  unfold validator_from_table, items, kept_columns.
  rewrite <- table_trafaret_succeeds.
  destruct (table_trafaret _ primary_key skip_pk); reflexivity.
Qed.

Lemma check_keys_collect (cv : Conversions) (ks : list (Key * trafaret))
    (data : list (string * pyval)) :
  fst (check_keys cv ks data) = [] ->
  map fst (snd (check_keys cv ks data)) = map (fun kt => key_name (fst kt)) ks.
Proof.
  induction ks as [| [key t] rest IH]; simpl; [reflexivity |].
  destruct (check_keys cv rest data) as [errors collect]. simpl in IH.
  destruct (call_key cv key t data); simpl; intros H; [discriminate |].
  now rewrite (IH H).
Qed.

Lemma check_extras_rejects (touched ignored : list string)
    (data : list (string * pyval)) (k : string) (v : pyval) :
  In (k, v) data -> ~ In k touched -> ~ In k ignored ->
  In (Name k, Failure (k ++ " is not allowed key") None)
     (check_extras touched ignored data).
Proof.
  intros Hin Ht Hi. apply str_in_not_In in Ht. apply str_in_not_In in Hi.
  induction data as [| [k' v'] rest IH]; [destruct Hin |].
  cbn -[str_in]. destruct Hin as [Heq | Hin].
  - injection Heq as -> ->. rewrite Ht, Hi. now left.
  - specialize (IH Hin).
    destruct (str_in k' touched); [exact IH |].
    destruct (str_in k' ignored); [exact IH | now right].
Qed.

Section ValidatorFacts.

Variable cv : Conversions.

(** X18.  A field without a server default is required, nullable or not: a
    payload that lacks it is rejected, and the error lists that field with
    "is required", together with every other failure of the payload. *)
Theorem validator_requires_field (table : Table) (primary_key : string)
    (skip_pk : bool) (d : Dict) (column : Column) (data : list (string * pyval)) :
  validator_from_table table primary_key skip_pk = inr d ->
  In column (kept_columns table primary_key skip_pk) ->
  server_default column = None ->
  get data (name column) = None ->
  exists errs,
    check_dict cv d (VDict data) = inl (Errors errs) /\
    In (Name (name column), Failure "is required" None) errs.
Proof.
  unfold validator_from_table, items, kept_columns. intros H Hin Hdefault Hget.
  inv_bind H ks Hks. injection H as <-.
  pose proof (table_trafaret_fields _ _ _ _ Hks) as Hall.
  destruct (Forall2_In_left _ _ _ _ Hall Hin) as [[key t] [Hkt [Hkey _]]].
  simpl in Hkey. rewrite Hdefault in Hkey. subst key.
  pose proof (check_keys_required cv ks data (name column) t Hkt Hget) as Hreq.
  unfold check_dict. simpl.
  destruct (check_keys cv ks data) as [errors collect]. simpl in Hreq.
  set (extras := check_extras _ _ data).
  assert (Hall' : In (Name (name column), Failure "is required" None)
                     (errors ++ extras)%list) by (apply in_or_app; now left).
  destruct (errors ++ extras)%list as [| e errs] eqn:E; [destruct Hall' |].
  exists (e :: errs). split; [reflexivity | exact Hall'].
Qed.

(** X19.  A payload the validator accepts comes back as a record with
    exactly the validator's fields, in table order: an extra primary key is
    dropped from the result. *)
Theorem validated_record_fields (table : Table) (primary_key : string)
    (skip_pk : bool) (d : Dict) (payload record : pyval) :
  validator_from_table table primary_key skip_pk = inr d ->
  check_dict cv d payload = inr record ->
  exists collect,
    record = VDict collect /\
    map fst collect = map name (kept_columns table primary_key skip_pk).
Proof.
  unfold validator_from_table, items, kept_columns. intros H Hcheck.
  inv_bind H ks Hks. injection H as <-.
  pose proof (table_trafaret_fields _ _ _ _ Hks) as Hall.
  apply field_names_kept in Hall. rewrite <- Hall.
  unfold check_dict in Hcheck. simpl in Hcheck.
  destruct payload; try discriminate Hcheck.
  pose proof (check_keys_collect cv ks items0) as Hcollect.
  destruct (check_keys cv ks items0) as [errors collect]. simpl in Hcollect.
  destruct errors as [| e errors]; simpl in Hcheck.
  - destruct (check_extras _ _ items0); [| discriminate].
    injection Hcheck as <-. exists collect. split; [reflexivity | now apply Hcollect].
  - discriminate.
Qed.

(** X20.  A payload key that is neither a column of the table nor the
    primary key is rejected as "not allowed". *)
Theorem validator_rejects_unknown_key (table : Table) (primary_key : string)
    (skip_pk : bool) (d : Dict) (data : list (string * pyval)) (k : string) (v : pyval) :
  validator_from_table table primary_key skip_pk = inr d ->
  In (k, v) data ->
  ~ In k (keys table) ->
  k <> primary_key ->
  exists errs,
    check_dict cv d (VDict data) = inl (Errors errs) /\
    In (Name k, Failure (k ++ " is not allowed key") None) errs.
Proof.
  unfold validator_from_table, items. intros H Hin Hcol Hpk.
  inv_bind H ks Hks. injection H as <-.
  pose proof (table_trafaret_fields _ _ _ _ Hks) as Hall.
  apply field_names_kept in Hall.
  assert (Htouched : ~ In k (map (fun kt => key_name (fst kt)) ks)).
  { rewrite Hall. intros Hk. apply Hcol. unfold keys.
    destruct skip_pk; [| exact Hk].
    apply in_map_iff in Hk. destruct Hk as [col [Hn Hc]].
    apply filter_In in Hc. apply in_map_iff. exists col. tauto. }
  assert (Hextra : In (Name k, Failure (k ++ " is not allowed key") None)
                      (check_extras (map (fun kt => key_name (fst kt)) ks)
                                    [primary_key] data)).
  { apply (check_extras_rejects _ _ _ k v Hin Htouched).
    intros [Heq | []]. now apply Hpk. }
  unfold check_dict. simpl.
  destruct (check_keys cv ks data) as [errors collect].
  set (extras := check_extras _ _ data) in *.
  assert (Hall' : In (Name k, Failure (k ++ " is not allowed key") None)
                     (errors ++ extras)%list) by (apply in_or_app; now right).
  destruct (errors ++ extras)%list as [| e errs] eqn:E; [destruct Hall' |].
  exists (e :: errs). split; [reflexivity | exact Hall'].
Qed.

End ValidatorFacts.

Lemma validator_requires_field_witness :
  exists errs,
    check_dict plain
      (mkDict [(mkKey "id" None, TInt); (mkKey "name" None, TString (Some 30));
               (mkKey "age" None, TInt); (mkKey "nick" None, TOr TInt TNull)] ["id"])
      (VDict [("id", VInt 7)]) = inl (Errors errs) /\
    In (Name (name nick), Failure "is required" None) errs.
Proof.
  apply (validator_requires_field plain users "id" false _ nick [("id", VInt 7)] eq_refl).
  - simpl. auto.
  - reflexivity.
  - reflexivity.
Defined.

Lemma validated_record_fields_witness :
  exists collect,
    VDict [("name", VStr "Bob"); ("age", VInt 30); ("nick", VNone)] = VDict collect /\
    map fst collect = map name (kept_columns users "id" true).
Proof.
  exact (validated_record_fields plain users "id" true
           (mkDict [(mkKey "name" None, TString (Some 30)); (mkKey "age" None, TInt);
                    (mkKey "nick" None, TOr TInt TNull)] ["id"])
           (VDict [("id", VInt 7); ("name", VStr "Bob"); ("age", VInt 30);
                   ("nick", VNone)])
           (VDict [("name", VStr "Bob"); ("age", VInt 30); ("nick", VNone)])
           eq_refl eq_refl).
Defined.

Lemma validator_rejects_unknown_key_witness :
  exists errs,
    check_dict plain
      (mkDict [(mkKey "name" None, TString (Some 30)); (mkKey "age" None, TInt);
               (mkKey "nick" None, TOr TInt TNull)] ["id"])
      (VDict [("name", VStr "Bob"); ("color", VStr "red")]) = inl (Errors errs) /\
    In (Name "color", Failure ("color" ++ " is not allowed key") None) errs.
Proof.
  apply (validator_rejects_unknown_key plain users "id" true _
           [("name", VStr "Bob"); ("color", VStr "red")] "color" (VStr "red") eq_refl).
  - simpl. auto.
  - simpl. intuition discriminate.
  - discriminate.
Defined.

(** ** Resource registration, continued *)

Lemma getitem_setitem_same {A : Type} (d : list (string * A)) (k : string) (v : A) :
  getitem (routes.setitem d k v) k = Some v.
Proof.
  induction d as [| [k' v'] rest IH]; simpl.
  - now rewrite String.eqb_refl.
  - destruct (String.eqb k k') eqn:E; simpl.
    + now rewrite String.eqb_refl.
    + now rewrite E.
Qed.

Lemma getitem_setitem_other {A : Type} (d : list (string * A)) (k k' : string) (v : A) :
  k' <> k -> getitem (routes.setitem d k v) k' = getitem d k'.
Proof.
  intros Hne. induction d as [| [k0 v0] rest IH]; simpl.
  - apply String.eqb_neq in Hne. now rewrite Hne.
  - destruct (String.eqb k k0) eqn:E; simpl.
    + apply String.eqb_eq in E. subst k0.
      apply String.eqb_neq in Hne. now rewrite Hne.
    + now rewrite IH.
Qed.

Lemma setup_resource_ok (admin : routes.Admin) (r : routes.Resource) :
  routes.setup_resource admin r
  = inr (routes.mkAdmin
           (routes.resources admin ++ [registered r])
           (routes.router admin ++ routes.routes (routes.model r))
           (routes.setitem (routes.state_resources admin)
                           (routes.name (routes.model r)) (state_of r))).
Proof.
  unfold routes.setup_resource. rewrite omit_fields_of_ok. reflexivity.
Qed.

Lemma setup_loop_registers (rs : list routes.Resource) (admin admin' : routes.Admin) :
  routes.setup_loop admin rs = inr admin' ->
  routes.resources admin' = (routes.resources admin ++ map registered rs)%list /\
  routes.router admin'
  = (routes.router admin ++ flat_map (fun r => routes.routes (routes.model r)) rs)%list.
Proof.
  revert admin. induction rs as [| r rest IH]; intros admin H; simpl in H.
  - injection H as <-. simpl. now rewrite !app_nil_r.
  - rewrite setup_resource_ok in H. destruct (IH _ H) as [Hres Hrouter].
    simpl in Hres, Hrouter. rewrite Hres, Hrouter. simpl.
    now rewrite <- !app_assoc.
Qed.

Lemma setup_loop_states (rs : list routes.Resource) (admin admin' : routes.Admin)
    (k : string) :
  routes.setup_loop admin rs = inr admin' ->
  getitem (routes.state_resources admin') k
  = match last_named rs k with
    | Some r => Some (state_of r)
    | None => getitem (routes.state_resources admin) k
    end.
Proof.
  revert admin. induction rs as [| r rest IH]; intros admin H; simpl in H.
  - now injection H as <-.
  - rewrite setup_resource_ok in H. rewrite (IH _ H). simpl.
    destruct (last_named rest k); [reflexivity |].
    destruct (String.eqb k (routes.name (routes.model r))) eqn:E.
    + apply String.eqb_eq in E. subst k. apply getitem_setitem_same.
    + apply String.eqb_neq in E. now apply getitem_setitem_other.
Qed.

(** X21.  [setup_resources] registers the models of the schema in schema
    order, each with its inputs updated, and adds their routes, in the
    same order, after the routes the router already had. *)
Theorem setup_resources_registers (admin admin' : routes.Admin)
    (schema : list routes.Resource) :
  routes.setup_resources admin schema = inr admin' ->
  routes.resources admin' = map registered schema /\
  routes.router admin'
  = (routes.router admin
     ++ flat_map (fun r => routes.routes (routes.model r)) schema)%list.
Proof.
  unfold routes.setup_resources. intros H.
  exact (setup_loop_registers schema _ admin' H).
Qed.

(** X22.  The state recorded under a model name is that of the last schema
    entry with that name: the model's fields; the omitted fields, which
    are the fields missing from "display" (none when the entry has no
    "display"); the inputs, updated with respect to the omitted fields;
    the repr field, defaulting to the model's; label; icon; and the
    bulk-update settings, defaulting to none.  A name no entry carries has
    no state, whatever the admin held before. *)
Theorem setup_resources_state (admin admin' : routes.Admin)
    (schema : list routes.Resource) (k : string) :
  routes.setup_resources admin schema = inr admin' ->
  match last_named schema k with
  | None => getitem (routes.state_resources admin') k = None
  | Some r =>
      exists st,
        getitem (routes.state_resources admin') k = Some st /\
        routes.state_fields st = routes.fields (routes.model r) /\
        (forall f, In f (routes.list_omit st) <->
                   In f (map fst (routes.fields (routes.model r))) /\
                   exists shown, routes.display r = Some shown /\ ~ In f shown) /\
        routes.state_inputs st
        = routes.always_on (routes.list_omit st) (routes.inputs (routes.model r)) /\
        routes.state_repr st
        = match routes.repr r with
          | Some x => x
          | None => routes.repr_field (routes.model r)
          end /\
        routes.state_label st = routes.label r /\
        routes.state_icon st = routes.icon r /\
        routes.state_bulk_update st
        = match routes.bulk_update r with Some b => b | None => VDict [] end
  end.
Proof.
  unfold routes.setup_resources. intros H.
  rewrite (setup_loop_states schema _ admin' k H). simpl.
  destruct (last_named schema k) as [r |]; [| reflexivity].
  exists (state_of r). split; [reflexivity |]. split; [reflexivity |].
  split; [| repeat split].
  intros f. simpl. destruct (routes.display r) as [shown |]; simpl.
  - unfold routes.keys_minus. rewrite filter_In, negb_true_iff, str_in_not_In. split.
    + intros [Hf Hs]. split; [exact Hf | exists shown; auto].
    + intros [Hf [shown' [Hd Hs]]]. injection Hd as <-. auto.
  - split; [intros [] | intros [_ [shown [Hd _]]]; discriminate Hd].
Qed.

(** X23.  The loop over the inputs keeps their keys and order.  An input
    whose key is omitted is left as it was; any other input gets
    props["alwaysOn"] = "alwaysOn" and keeps its other props. *)
Theorem always_on_inputs (omit_fields : list string)
    (ins : list (string * routes.Input)) :
  map fst (routes.always_on omit_fields ins) = map fst ins /\
  Forall2 (fun before after =>
             if str_in (fst before) omit_fields then after = before
             else getitem (routes.props (snd after)) "alwaysOn" = Some (VStr "alwaysOn")
                  /\ forall p, p <> "alwaysOn" ->
                       getitem (routes.props (snd after)) p
                       = getitem (routes.props (snd before)) p)
          ins (routes.always_on omit_fields ins).
Proof.
  induction ins as [| [k inp] rest [IHk IHall]]; simpl; [split; constructor |].
  split.
  - rewrite IHk. now destruct (str_in k omit_fields).
  - constructor; [| exact IHall]. simpl.
    destruct (str_in k omit_fields); simpl; [reflexivity |].
    split; [apply getitem_setitem_same |].
    intros p Hp. now apply getitem_setitem_other.
Qed.

Lemma setup_resources_registers_witness :
  routes.resources sample_admin = map registered sample_schema /\
  routes.router sample_admin
  = (routes.router bare_admin
     ++ flat_map (fun r => routes.routes (routes.model r)) sample_schema)%list.
Proof.
  exact (setup_resources_registers bare_admin sample_admin sample_schema eq_refl).
Defined.

Lemma setup_resources_state_witness :
  (exists st,
      getitem (routes.state_resources sample_admin) "people" = Some st /\
      routes.state_fields st = routes.fields people_model /\
      (forall f, In f (routes.list_omit st) <->
                 In f (map fst (routes.fields people_model)) /\
                 exists shown, Some ["id"; "name"; "ghost"] = Some shown /\ ~ In f shown) /\
      routes.state_inputs st
      = routes.always_on (routes.list_omit st) (routes.inputs people_model) /\
      routes.state_repr st = "name" /\
      routes.state_label st = Some "People" /\
      routes.state_icon st = None /\
      routes.state_bulk_update st = VDict []) /\
  getitem (routes.state_resources sample_admin) "old" = None.
Proof.
  split.
  - exact (setup_resources_state bare_admin sample_admin sample_schema "people" eq_refl).
  - exact (setup_resources_state bare_admin sample_admin sample_schema "old" eq_refl).
Defined.

Example setup_resources_sample :
  option_map routes.list_omit (getitem (routes.state_resources sample_admin) "people")
  = Some ["age"] /\
  option_map (fun st => map (fun kv => getitem (routes.props (snd kv)) "alwaysOn")
                            (routes.state_inputs st))
             (getitem (routes.state_resources sample_admin) "people")
  = Some [Some (VStr "alwaysOn"); Some (VStr "alwaysOn"); None] /\
  getitem (routes.state_resources sample_admin) "old" = None.
Proof. repeat split; reflexivity. Qed.
